(** * sensorManager: acquisition, scheduling and spectral classification

    A shallow embedding of [src/sensorManager.cpp].  C [int] values are
    integers of [Z] with the 32-bit wrap-around written out, C [float] and
    [double] values are IEEE-754 numbers (the kernel's binary64 numbers; a
    [float] is narrowed to binary32 by [to_float32], and every binary32 value
    is a binary64 value, so comparing a [float] with a [double] constant is
    the comparison of the two binary64 numbers).  Arrays are lists; an access
    outside an array is a fault.  The calls to the sensor driver, the storage
    backend and the power rail are answered by an [environment] and recorded
    in a trace. *)

From Stdlib Require Import ZArith QArith Lia Bool List Floats.
From stdpp Require Import base option list list_numbers.
Import ListNotations.

#[local] Open Scope Z_scope.

(** ** Machine integers *)

(** Two's-complement reading of the low [w] bits of [x]. *)
Definition wrap_signed (w : Z) (x : Z) : Z :=
  let m := x mod 2 ^ w in
  if m <? 2 ^ (w - 1) then m else m - 2 ^ w.

(** [int] (32 bits on the target). *)
Definition int32 (x : Z) : Z := wrap_signed 32 x.

(** [int16_t]. *)
Definition int16 (x : Z) : Z := wrap_signed 16 x.

(** [uint8_t]. *)
Definition uint8 (x : Z) : Z := x mod 256.

(** ** Floating point *)

(** Conversion of an integer to [double]; exact for every [int]. *)
Definition Z2double (n : Z) : float :=
  match n with
  | Z0 => 0%float
  | Zpos _ => PrimFloat.of_uint63 (Uint63.of_Z n)
  | Zneg p => (- PrimFloat.of_uint63 (Uint63.of_Z (Zpos p)))%float
  end.

(** Narrowing of a [double] to [float]: round to nearest even on 24 bits of
    precision, exponents of binary32. *)
Definition to_float32 (x : float) : float :=
  match Prim2SF x with
  | S754_finite s m e =>
      SF2Prim (binary_normalize 24 128 (if s then Zneg m else Zpos m) e s)
  | _ => x
  end.

(** [(float) n] for an [int] [n]. *)
Definition float_of_int (n : Z) : float := to_float32 (Z2double n).

(** The real number a finite floating-point value stands for. *)
Definition float_value (x : float) : option Q :=
  match Prim2SF x with
  | S754_zero _ => Some 0%Q
  | S754_finite s m e =>
      let n := if s then Zneg m else Zpos m in
      Some (if 0 <=? e then inject_Z (n * 2 ^ e) else (n # Z.to_pos (2 ^ (- e))))
  | _ => None
  end.

(** ** Configuration constants of [sensorManager.cpp] *)

Definition SAMPLING_FREQUENCY : Z := 5.
Definition AXE_MIN_FREQ : float := 20%float.
Definition AXE_MAX_FREQ : float := 60%float.
Definition SAW_MIN_FREQ : float := 5%float.
Definition SAW_MAX_FREQ : float := 30%float.
Definition CHAINSAW_MIN_FREQ : float := 50%float.
Definition CHAINSAW_MAX_FREQ : float := 250%float.
(** The [double] literal [0.3]. *)
Definition SOME_THRESHOLD : float := 0x1.3333333333333p-2%float.

(** ** Data model of the classifier *)

Inductive band : Type := Axe | Handsaw | Chainsaw.

(** What [performFFT] reports on the console. *)
Inductive ClassificationResult : Type :=
  | Detected (b : band)
  | NoActivity.

(** The three running maxima, locals of [performFFT]. *)
Record maxima : Type := Maxima {
  max_axe_magnitude : float;
  max_saw_magnitude : float;
  max_chainsaw_magnitude : float
}.

Definition band_max (m : maxima) (b : band) : float :=
  match b with
  | Axe => max_axe_magnitude m
  | Handsaw => max_saw_magnitude m
  | Chainsaw => max_chainsaw_magnitude m
  end.

(** [float max_..._magnitude = 0;] for the three of them. *)
Definition initial_maxima : maxima := Maxima 0 0 0.

(** The range test of each branch of the scoring loop (lines 157, 159, 161). *)
Definition in_band (b : band) (frequency : float) : bool :=
  match b with
  | Axe => (AXE_MIN_FREQ <=? frequency)%float && (frequency <=? AXE_MAX_FREQ)%float
  | Handsaw => (SAW_MIN_FREQ <=? frequency)%float && (frequency <=? SAW_MAX_FREQ)%float
  | Chainsaw =>
      (CHAINSAW_MIN_FREQ <=? frequency)%float && (frequency <=? CHAINSAW_MAX_FREQ)%float
  end.

(** The body of the scoring loop after [frequency] and [magnitude] are
    computed: an if / else-if chain over axe, handsaw, chainsaw. *)
Definition score_bin (m : maxima) (frequency magnitude : float) : maxima :=
  if in_band Axe frequency then
    if (max_axe_magnitude m <? magnitude)%float
    then Maxima magnitude (max_saw_magnitude m) (max_chainsaw_magnitude m)
    else m
  else if in_band Handsaw frequency then
    if (max_saw_magnitude m <? magnitude)%float
    then Maxima (max_axe_magnitude m) magnitude (max_chainsaw_magnitude m)
    else m
  else if in_band Chainsaw frequency then
    if (max_chainsaw_magnitude m <? magnitude)%float
    then Maxima (max_axe_magnitude m) (max_saw_magnitude m) magnitude
    else m
  else m.

(** The final if / else-if chain of [performFFT] (lines 168-176). *)
Definition decision (m : maxima) : ClassificationResult :=
  if (SOME_THRESHOLD <? max_chainsaw_magnitude m)%float then Detected Chainsaw
  else if (SOME_THRESHOLD <? max_axe_magnitude m)%float then Detected Axe
  else if (SOME_THRESHOLD <? max_saw_magnitude m)%float then Detected Handsaw
  else NoActivity.

(** [sqrt(pow(re, 2) + pow(im, 2))] in [double], stored in a [float]. *)
Definition magnitude_of (re im : float) : float :=
  to_float32 (PrimFloat.sqrt (re * re + im * im))%float.

(** Reading slot [i] of one of the arrays of [performFFT]: [inputBuffer] is
    read below [MAX_SAMPLES] only, and the transform's output array has a
    slot for every index below [SAMPLES]. *)
Definition slot (a : list float) (i : Z) : float :=
  default 0%float (a !! Z.to_nat i).

(** ** Arrays *)

(** Reading slot [i] of an array: a fault outside its bounds. *)
Definition load {A : Type} (a : list A) (i : Z) : option A :=
  if 0 <=? i then a !! Z.to_nat i else None.

(** Writing slot [i] of an array: a fault outside its bounds. *)
Definition store {A : Type} (a : list A) (i : Z) (v : A) : option (list A) :=
  if (0 <=? i) && (i <? Z.of_nat (length a))
  then Some (<[Z.to_nat i := v]> a)
  else None.

(** ** Acquisition: the sensor's queue *)

(** One turn of the polling loop of [readAccelerometerDataForPhase]: what
    [getFIFOCount] answers, and the contents of [fifoBuffer] after
    [getFIFOBytes] when the block is read. *)
Record poll : Type := Poll {
  fifoCount : Z;
  fifoBuffer : list Z
}.

(** Lines 126-127: [int16_t accelX = (fifoBuffer[i] << 8) | fifoBuffer[i + 1]]
    and [accelX / 16384.0], stored in a [float]. *)
Definition accelX_of (hi lo : Z) : Z :=
  int16 (Z.lor (Z.shiftl (uint8 hi) 8) (uint8 lo)).

Definition g_force (hi lo : Z) : float :=
  to_float32 (Z2double (accelX_of hi lo) / 16384)%float.

(** ** The scheduler's world *)

(** Calls that leave the core, in the order they are made.  The console
    output is left out, but for the line that opens a phase; so are the
    delays. *)
Inductive event : Type :=
  | QuickBlinkAndHalt
  | RecordingPhase (phase remaining : Z)
  | ToggleSensorPower (on : bool)
  | MpuInitialize
  | MpuTestConnection (ok : bool)
  | MpuConfigureFifo
  | FifoAcquisition (phase samplesRead : Z)
  | LogDataToSPIFFS (phase : Z) (ok : bool)
  | PerformFFT (result : ClassificationResult)
  | SpiffsEnd
  | SpiffsBegin (formatOnFail ok : bool).

(** The globals the scheduler works on, the trace, and how many answers of
    each kind the environment has given so far. *)
Record world : Type := World {
  remainingCycles : Z;
  inputBuffer : list float;
  trace : list event;
  inits : nat;
  stores : nat;
  mounts : nat;
  acquisitions : nat
}.

(** The collaborators: the answer of the connection probe of the k-th
    [initializeMPU], of the k-th [logDataToSPIFFS], of the k-th
    [SPIFFS.begin], and the turns the polling loop of the k-th acquisition
    makes before [PHASE_DURATION] has elapsed. *)
Record environment : Type := Environment {
  testConnection : nat -> bool;
  logging : nat -> bool;
  remount : nat -> bool;
  fifo_turns : nat -> list poll
}.

(** A run returns, faults on an access outside an array, or is still in the
    retry loop when the fuel is spent. *)
Inductive outcome (A : Type) : Type :=
  | Returns (a : A)
  | Faults
  | OutOfFuel.

Arguments Returns {A} a.
Arguments Faults {A}.
Arguments OutOfFuel {A}.

Definition M (A : Type) : Type := world -> outcome (A * world).

#[global] Instance M_ret : MRet M := fun A a w => Returns (a, w).

#[global] Instance M_bind : MBind M := fun A B f m w =>
  match m w with
  | Returns (a, w') => f a w'
  | Faults => Faults
  | OutOfFuel => OutOfFuel
  end.

Definition emit (e : event) : M unit := fun w =>
  Returns (tt, World (remainingCycles w) (inputBuffer w) (trace w ++ [e])
                     (inits w) (stores w) (mounts w) (acquisitions w)).

(** How a turn of the attempt loop ends: with [continue] or by reaching the
    end of the body, or with [break]. *)
Inductive turn_end : Type := NextTurn | Break.

(** ** The statements of the specification, in its own words *)

(** "a named range [minFreq, maxFreq)": axe 20-60, handsaw 5-30, chainsaw 50-250. *)
Definition minFreq (b : band) : float :=
  match b with Axe => 20%float | Handsaw => 5%float | Chainsaw => 50%float end.

Definition maxFreq (b : band) : float :=
  match b with Axe => 60%float | Handsaw => 30%float | Chainsaw => 250%float end.

Definition half_open_range (lo hi f : float) : bool :=
  (lo <=? f)%float && (f <? hi)%float.

Definition closed_range (lo hi f : float) : bool :=
  (lo <=? f)%float && (f <=? hi)%float.

(** "fixed priority order chainsaw > axe > handsaw: the first band whose
    maximum exceeds a shared threshold wins; if none, the result is none". *)
Definition priority_order : list band := [Chainsaw; Axe; Handsaw].

Definition spec_decision (m : maxima) : ClassificationResult :=
  match List.find (fun b => (SOME_THRESHOLD <? band_max m b)%float) priority_order with
  | Some b => Detected b
  | None => NoActivity
  end.

(** The order of the branches of the scoring loop. *)
Definition branch_order : list band := [Axe; Handsaw; Chainsaw].

Definition first_match (frequency : float) : option band :=
  List.find (fun b => in_band b frequency) branch_order.

(** ** A small configuration for concrete runs *)

(** Two samples, of +1 and -1 in units of 1/16384 g. *)
Definition sample_block : list Z := [0; 1; 0; 0; 0; 0; 255; 255; 0; 0; 0; 0].

(** A full block, a turn with too few bytes queued, and a second block. *)
Definition sample_turns : list poll :=
  [Poll 12 sample_block; Poll 3 []; Poll 12 sample_block].

(** Collaborators that always give the same answers. *)
Definition sample_env (connected stored remounted : bool) : environment :=
  Environment (fun _ => connected) (fun _ => stored) (fun _ => remounted)
    (fun _ => sample_turns).

(** Collaborators whose first store fails; the remount and the later
    stores succeed. *)
Definition first_store_fails_env : environment :=
  Environment (fun _ => true) (fun k => negb (Nat.eqb k 0)) (fun _ => true)
    (fun _ => sample_turns).

(** A buffer of three samples and an empty trace. *)
Definition sample_world (remaining : Z) : world :=
  World remaining [0; 0; 0]%float [] 0 0 0 0.

Definition identity_transform (input : list float) : list float := input.

Section Firmware.

(** Constants of headers that are not part of the sources at hand: the
    transform length, the capacity of the sample buffer, the size of a FIFO
    block and the number of phases of a pass. *)
Variable SAMPLES : Z.
Variable MAX_SAMPLES : Z.
Variable BLOCK_SIZE : Z.
Variable CYCLES_FOR_5_MIN : Z.

(** [fft_execute]: the transform, from the filled input slots to the
    interleaved output array. *)
Variable fft_execute : list float -> list float.

(** Lines 140-142: [input[i] = (i < MAX_SAMPLES) ? inputBuffer[i] : 0]. *)
Definition fft_input_of (inputBuffer : list float) : list float :=
  (fun i => if i <? MAX_SAMPLES then slot inputBuffer i else 0%float) <$> seqZ 0 SAMPLES.

(** The [int] expression [(i * SAMPLING_FREQUENCY) / SAMPLES] of line 152:
    both operands are [int], so the division is the truncating one. *)
Definition bin_frequency_int (i : Z) : Z :=
  Z.quot (int32 (i * SAMPLING_FREQUENCY)) SAMPLES.

(** [float frequency = (i * SAMPLING_FREQUENCY) / SAMPLES;] *)
Definition bin_frequency (i : Z) : float := float_of_int (bin_frequency_int i).

(** Line 153. *)
Definition bin_magnitude (output : list float) (i : Z) : float :=
  magnitude_of (slot output (2 * i)) (slot output (2 * i + 1)).

(** The bins the loop [for (int i = 1; i < (SAMPLES / 2); i++)] visits. *)
Definition scored_bins : list Z := seqZ 1 (Z.quot SAMPLES 2 - 1).

(** Lines 146-164. *)
Definition band_maxima (output : list float) : maxima :=
  fold_left
    (fun m i => score_bin m (bin_frequency i) (bin_magnitude output i))
    scored_bins initial_maxima.

Definition performFFT (inputBuffer : list float) : ClassificationResult :=
  decision (band_maxima (fft_execute (fft_input_of inputBuffer))).

(** The frequency the specification asks for: the exact quotient. *)
Definition exact_frequency (i : Z) : Q := (i * SAMPLING_FREQUENCY) # Z.to_pos SAMPLES.

(** *** readAccelerometerDataForPhase *)

(** The offsets [i = 0, 6, 12, ...] with [i <= BLOCK_SIZE - 6]. *)
Definition block_offsets : list Z :=
  Z.mul 6 <$> seqZ 0 ((BLOCK_SIZE - 6) `div` 6 + 1).

(** The loop of line 125 over the offsets still ahead: it stops at the first
    turn that finds [samplesRead < MAX_SAMPLES] false. *)
Fixpoint extract_block (offsets : list Z) (block : list Z)
    (buffer : list float) (samplesRead : Z) : option (list float * Z) :=
  match offsets with
  | [] => Some (buffer, samplesRead)
  | i :: rest =>
      if samplesRead <? MAX_SAMPLES then
        hi ← load block i;
        lo ← load block (i + 1);
        buffer' ← store buffer samplesRead (g_force hi lo);
        extract_block rest block buffer' (samplesRead + 1)
      else Some (buffer, samplesRead)
  end.

(** The polling loop of lines 118-134, one [poll] for each of its turns. *)
Fixpoint poll_loop (turns : list poll) (buffer : list float) (samplesRead : Z)
    : option (list float * Z) :=
  match turns with
  | [] => Some (buffer, samplesRead)
  | p :: rest =>
      if BLOCK_SIZE <=? fifoCount p then
        '(buffer', samplesRead') ←
          extract_block block_offsets (fifoBuffer p) buffer samplesRead;
        poll_loop rest buffer' samplesRead'
      else poll_loop rest buffer samplesRead
  end.

(** [int samplesRead = 0;] and the polling loop. *)
Definition fill_buffer (turns : list poll) (buffer : list float)
    : option (list float * Z) :=
  poll_loop turns buffer 0.

(** *** monitorSensors *)

Variable env : environment.

Definition initializeMPU : M bool := fun w =>
  let ok := testConnection env (inits w) in
  Returns (ok, World (remainingCycles w) (inputBuffer w)
                 (trace w ++ [MpuInitialize; MpuTestConnection ok]
                          ++ (if ok then [MpuConfigureFifo] else []))
                 (S (inits w)) (stores w) (mounts w) (acquisitions w)).

Definition readAccelerometerDataForPhase (phase : Z) : M unit := fun w =>
  match fill_buffer (fifo_turns env (acquisitions w)) (inputBuffer w) with
  | Some (buffer, samplesRead) =>
      Returns (tt, World (remainingCycles w) buffer
                     (trace w ++ [FifoAcquisition phase samplesRead])
                     (inits w) (stores w) (mounts w) (S (acquisitions w)))
  | None => Faults
  end.

Definition logDataToSPIFFS (phase : Z) : M bool := fun w =>
  let ok := logging env (stores w) in
  Returns (ok, World (remainingCycles w) (inputBuffer w)
                 (trace w ++ [LogDataToSPIFFS phase ok])
                 (inits w) (S (stores w)) (mounts w) (acquisitions w)).

Definition SPIFFS_begin (formatOnFail : bool) : M bool := fun w =>
  let ok := remount env (mounts w) in
  Returns (ok, World (remainingCycles w) (inputBuffer w)
                 (trace w ++ [SpiffsBegin formatOnFail ok])
                 (inits w) (stores w) (S (mounts w)) (acquisitions w)).

(** [performFFT();] on the global buffer. *)
Definition run_performFFT : M unit := fun w =>
  emit (PerformFFT (performFFT (inputBuffer w))) w.

(** [remainingCycles--;] *)
Definition decrement_remainingCycles : M unit := fun w =>
  Returns (tt, World (int32 (remainingCycles w - 1)) (inputBuffer w) (trace w)
                 (inits w) (stores w) (mounts w) (acquisitions w)).

(** The body of the attempt loop (lines 84-106): the new values of
    [phaseCompleted] and [retryCount], and how the turn ends. *)
Definition attempt (phase retryCount : Z) : M (bool * Z * turn_end) :=
  emit (ToggleSensorPower true);;
  initialized ← initializeMPU;
  if negb initialized return M (bool * Z * turn_end)
  then mret (false, retryCount + 1, NextTurn)
  else
    readAccelerometerDataForPhase phase;;
    loggingSuccess ← logDataToSPIFFS phase;
    if (loggingSuccess : bool) return M (bool * Z * turn_end) then
      emit (ToggleSensorPower false);;
      run_performFFT;;
      mret (true, retryCount, NextTurn)
    else
      emit SpiffsEnd;;
      remounted ← SPIFFS_begin true;
      if negb remounted return M (bool * Z * turn_end)
      then mret (false, retryCount, Break)
      else mret (false, retryCount, NextTurn).

(** [while (!phaseCompleted && retryCount < 3) { ... }]: the values of
    [phaseCompleted] and [retryCount] when the loop is left. *)
Fixpoint attempt_loop (fuel : nat) (phase : Z) (phaseCompleted : bool)
    (retryCount : Z) : M (bool * Z) :=
  if negb phaseCompleted && (retryCount <? 3) then
    match fuel with
    | O => fun _ => OutOfFuel
    | S fuel' =>
        '(phaseCompleted', retryCount', how) ← attempt phase retryCount;
        match how return M (bool * Z) with
        | Break => mret (phaseCompleted', retryCount')
        | NextTurn => attempt_loop fuel' phase phaseCompleted' retryCount'
        end
    end
  else mret (phaseCompleted, retryCount).

(** One turn of the loop over the phases (lines 77-109); it returns the
    value [phaseCompleted] had when the attempt loop was left. *)
Definition run_phase (fuel : nat) (phase : Z) : M bool :=
  remaining ← (fun w => Returns (remainingCycles w, w));
  emit (RecordingPhase phase remaining);;
  '(phaseCompleted, _) ← attempt_loop fuel phase false 0;
  decrement_remainingCycles;;
  mret phaseCompleted.

(** [for (int phase = 1; phase <= CYCLES_FOR_5_MIN; phase++)] over the
    phases still ahead. *)
Fixpoint phase_loop (fuel : nat) (phases : list Z) : M unit :=
  match phases with
  | [] => mret tt
  | phase :: rest => run_phase fuel phase;; phase_loop fuel rest
  end.

Definition monitorSensors (fuel : nat) : M unit := fun w =>
  if remainingCycles w <=? 0 then emit QuickBlinkAndHalt w
  else phase_loop fuel (seqZ 1 CYCLES_FOR_5_MIN) w.

(** The phases a trace opens, in order. *)
Definition phases_opened (t : list event) : list Z :=
  omap (fun e => match e with RecordingPhase p _ => Some p | _ => None end) t.

(** The events of the loop over the phases itself: the halt and the opening
    of a phase. *)
Definition is_scheduler_event (e : event) : bool :=
  match e with
  | QuickBlinkAndHalt | RecordingPhase _ _ => true
  | _ => false
  end.

Definition scheduler_events (t : list event) : list event :=
  List.filter is_scheduler_event t.

(** The openings of a run over [phases] that starts with [remaining] cycles
    and takes one cycle off after each phase. *)
Fixpoint phase_marks (remaining : Z) (phases : list Z) : list event :=
  match phases with
  | [] => []
  | phase :: rest => RecordingPhase phase remaining :: phase_marks (remaining - 1) rest
  end.

(** What a failed initialization leaves in the trace. *)
Definition failed_attempt : list event :=
  [ToggleSensorPower true; MpuInitialize; MpuTestConnection false].

(** What an attempt leaves in the trace up to the call of the store. *)
Definition recorded_attempt (phase samplesRead : Z) (stored : bool) : list event :=
  [ToggleSensorPower true; MpuInitialize; MpuTestConnection true;
   MpuConfigureFifo; FifoAcquisition phase samplesRead;
   LogDataToSPIFFS phase stored].

Definition is_PerformFFT (e : event) : bool :=
  match e with PerformFFT _ => true | _ => false end.

(** The acquisition cannot fault: every block that is read fills the
    [BLOCK_SIZE] slots of [fifoBuffer]. *)
Definition poll_ok (p : poll) : Prop :=
  BLOCK_SIZE <= fifoCount p -> Z.of_nat (length (fifoBuffer p)) = BLOCK_SIZE.

Definition buffer_ok (buffer : list float) : Prop :=
  Z.of_nat (length buffer) = MAX_SAMPLES.

Definition env_ok : Prop :=
  forall k, Forall poll_ok (fifo_turns env k).

(** The four ways an attempt can end. *)
Inductive attempt_end (retryCount : Z) (w w' : world)
    : bool -> Z -> turn_end -> Prop :=
  | InitFailed :
      stores w' = stores w ->
      attempt_end retryCount w w' false (retryCount + 1) NextTurn
  | Stored :
      attempt_end retryCount w w' true retryCount NextTurn
  | Dropped :
      attempt_end retryCount w w' false retryCount Break
  | Remounted :
      logging env (stores w) = false ->
      stores w' = S (stores w) ->
      attempt_end retryCount w w' false retryCount NextTurn.

(** ** Auxiliary notions for the further facts *)

(** The [n] integers from [first] on. *)
Fixpoint count_up (n : nat) (first : Z) : list Z :=
  match n with
  | O => []
  | S n' => first :: count_up n' (first + 1)
  end.

(** The values of a [uint8_t], and those of an [int16_t]. *)
Definition all_bytes : list Z := count_up 256 0.

Definition all_int16 : list Z := count_up (Z.to_nat 65536) (-32768).

(** Byte [i] of a block that has one. *)
Definition byte_at (block : list Z) (i : Z) : Z :=
  default 0 (block !! Z.to_nat i).

(** The turns of the polling loop that find a whole block queued. *)
Definition full_turns (turns : list poll) : list poll :=
  List.filter (fun p => BLOCK_SIZE <=? fifoCount p) turns.

(** The globals as the program starts: [remainingCycles = CYCLES_FOR_5_MIN]
    and a zeroed [inputBuffer]. *)
Definition initial_world : world :=
  World CYCLES_FOR_5_MIN (replicate (Z.to_nat MAX_SAMPLES) 0%float) [] 0 0 0 0.

Definition count_events (p : event -> bool) (t : list event) : nat :=
  length (List.filter p t).

Definition is_power_on (e : event) : bool :=
  match e with ToggleSensorPower true => true | _ => false end.

Definition is_power_off (e : event) : bool :=
  match e with ToggleSensorPower false => true | _ => false end.

Definition is_failed_probe (e : event) : bool :=
  match e with MpuTestConnection false => true | _ => false end.

Definition is_failed_remount (e : event) : bool :=
  match e with SpiffsBegin _ false => true | _ => false end.

Definition is_remount (e : event) : bool :=
  match e with SpiffsBegin _ true => true | _ => false end.

(** No event of the trace reports a detection. *)
Definition reports_no_detection (e : event) : bool :=
  match e with PerformFFT (Detected _) => false | _ => true end.

Definition bool_to_nat (b : bool) : nat := if b then 1%nat else 0%nat.

(** A value is a NaN when it differs from itself. *)
Definition is_NaN (x : float) : bool := negb (x =? x)%float.

(** * Facts *)

(** ** Machine integers *)

Lemma wrap_signed_id (w x : Z) :
  0 < w -> - 2 ^ (w - 1) <= x < 2 ^ (w - 1) -> wrap_signed w x = x.
Proof.
  intros Hw Hx. unfold wrap_signed.
  assert (Hp : 2 ^ w = 2 * 2 ^ (w - 1)).
  { replace w with (Z.succ (w - 1)) at 1 by lia. apply Z.pow_succ_r. lia. }
  destruct (Z_lt_le_dec x 0) as [Hneg | Hpos].
  - assert (Hm : x mod 2 ^ w = x + 2 ^ w).
    { symmetry. apply (Z.mod_unique_pos _ _ (-1)); lia. }
    cbv zeta. rewrite Hm.
    destruct (Z.ltb_spec (x + 2 ^ w) (2 ^ (w - 1))); lia.
  - cbv zeta. rewrite Z.mod_small by lia.
    destruct (Z.ltb_spec x (2 ^ (w - 1))); lia.
Qed.

Lemma wrap_signed_range (w x : Z) :
  0 < w -> - 2 ^ (w - 1) <= wrap_signed w x < 2 ^ (w - 1).
Proof.
  intros Hw. unfold wrap_signed.
  assert (Hp : 2 ^ w = 2 * 2 ^ (w - 1)).
  { replace w with (Z.succ (w - 1)) at 1 by lia. apply Z.pow_succ_r. lia. }
  assert (0 < 2 ^ (w - 1)) by (apply Z.pow_pos_nonneg; lia).
  pose proof (Z.mod_pos_bound x (2 ^ w) ltac:(lia)) as Hb.
  cbv zeta. destruct (Z.ltb_spec (x mod 2 ^ w) (2 ^ (w - 1))); lia.
Qed.

Lemma int32_id (x : Z) : - 2147483648 <= x < 2147483648 -> int32 x = x.
Proof. intros Hx. apply wrap_signed_id; [lia | exact Hx]. Qed.

Lemma int32_range (x : Z) : - 2147483648 <= int32 x < 2147483648.
Proof. apply (wrap_signed_range 32). lia. Qed.

(** ** Floating-point comparisons *)

Lemma float_leb_ltb_eqb (x y : float) :
  (x <=? y)%float = (x <? y)%float || (x =? y)%float.
Proof.
  rewrite FloatAxioms.leb_spec, FloatAxioms.ltb_spec, FloatAxioms.eqb_spec.
  unfold SFleb, SFltb, SFeqb.
  destruct (SFcompare (Prim2SF x) (Prim2SF y)) as [[ | | ] | ]; reflexivity.
Qed.

(** ** The classifier *)

Lemma scored_bins_spec (i : Z) : i ∈ scored_bins <-> 1 <= i < Z.quot SAMPLES 2.
Proof. unfold scored_bins. rewrite elem_of_seqZ. lia. Qed.

(** The truncated quotient of a scored bin is one of -2, ..., 2, also when
    the product has wrapped around. *)
Lemma bin_frequency_int_bound (i : Z) :
  i ∈ scored_bins -> -2 <= bin_frequency_int i <= 2.
Proof.
  rewrite scored_bins_spec. intros [Hlo Hhi].
  assert (Hs : 2 * i + 2 <= SAMPLES).
  { pose proof (Z.quot_rem' SAMPLES 2) as Hq.
    destruct (Z_lt_le_dec SAMPLES 0) as [Hn | Hp].
    - pose proof (Z.quot_le_mono SAMPLES 0 2 ltac:(lia) ltac:(lia)) as H0.
      rewrite Z.quot_0_l in H0 by lia. lia.
    - pose proof (Z.rem_bound_pos SAMPLES 2 Hp ltac:(lia)). lia. }
  unfold bin_frequency_int, SAMPLING_FREQUENCY.
  pose proof (int32_range (i * 5)) as Hr.
  assert (Hy : - (3 * SAMPLES) < int32 (i * 5) < 3 * SAMPLES).
  { destruct (Z_lt_le_dec (i * 5) 2147483648) as [Hsmall | Hbig].
    - rewrite int32_id by lia. lia.
    - lia. }
  set (y := int32 (i * 5)) in *. clearbody y.
  pose proof (Z.quot_rem' y SAMPLES) as Hq.
  destruct (Z_lt_le_dec y 0) as [Hn | Hp].
  - pose proof (Z.rem_bound_pos_neg y SAMPLES ltac:(lia) ltac:(lia)). nia.
  - pose proof (Z.rem_bound_pos y SAMPLES Hp ltac:(lia)). nia.
Qed.

Lemma small_frequency_in_no_band (q : Z) (b : band) :
  -2 <= q <= 2 ->
  in_band b (float_of_int q) = false /\
  (float_of_int q <? 2.5)%float = true /\
  (float_of_int q <? SAW_MIN_FREQ)%float = true.
Proof.
  intros Hq.
  assert (Hc : q = -2 \/ q = -1 \/ q = 0 \/ q = 1 \/ q = 2) by lia.
  destruct Hc as [-> | [-> | [-> | [-> | ->]]]]; destruct b;
    repeat split; vm_compute; reflexivity.
Qed.

Lemma score_bin_no_band (m : maxima) (frequency magnitude : float) :
  (forall b, in_band b frequency = false) ->
  score_bin m frequency magnitude = m.
Proof.
  intros Hno. unfold score_bin.
  rewrite (Hno Axe), (Hno Handsaw), (Hno Chainsaw). reflexivity.
Qed.

Lemma fold_score_no_band (output : list float) (bins : list Z) (m : maxima) :
  (forall i, i ∈ bins -> forall b, in_band b (bin_frequency i) = false) ->
  fold_left (fun m i => score_bin m (bin_frequency i) (bin_magnitude output i))
    bins m = m.
Proof.
  revert m. induction bins as [ | i bins IH]; intros m Hno; simpl.
  - reflexivity.
  - rewrite score_bin_no_band by (apply Hno; left).
    apply IH. intros j Hj. apply Hno. right. exact Hj.
Qed.

Lemma band_maxima_initial (output : list float) :
  band_maxima output = initial_maxima.
Proof.
  unfold band_maxima. apply fold_score_no_band.
  intros i Hi b. unfold bin_frequency.
  apply small_frequency_in_no_band, bin_frequency_int_bound, Hi.
Qed.

(** C1.  Whatever the buffer holds, [performFFT] reports no activity: with
    [SAMPLING_FREQUENCY] 5 the frequency of every scored bin is below 2.5,
    which no band contains, so the three maxima keep their initial 0 and
    none of them exceeds the threshold. *)
Theorem performFFT_reports_no_activity (inputBuffer : list float) :
  (forall i, i ∈ scored_bins ->
     (bin_frequency i <? 2.5)%float = true /\
     (bin_frequency i <? SAW_MIN_FREQ)%float = true /\
     forall b, in_band b (bin_frequency i) = false) /\
  band_maxima (fft_execute (fft_input_of inputBuffer)) = Maxima 0 0 0 /\
  performFFT inputBuffer = NoActivity.
Proof.
  split; [ | split].
  - intros i Hi. pose proof (bin_frequency_int_bound i Hi) as Hq.
    unfold bin_frequency. repeat split.
    + apply (small_frequency_in_no_band _ Axe Hq).
    + apply (small_frequency_in_no_band _ Axe Hq).
    + intros b. apply (small_frequency_in_no_band _ b Hq).
  - apply band_maxima_initial.
  - unfold performFFT. rewrite band_maxima_initial. vm_compute. reflexivity.
Qed.

(** The nested conditionals of the source pick what a search along the
    priority order picks. *)
Lemma decision_spec (m : maxima) : decision m = spec_decision m.
Proof.
  unfold decision, spec_decision, priority_order. simpl.
  destruct (SOME_THRESHOLD <? max_chainsaw_magnitude m)%float; [reflexivity | ].
  destruct (SOME_THRESHOLD <? max_axe_magnitude m)%float; [reflexivity | ].
  destruct (SOME_THRESHOLD <? max_saw_magnitude m)%float; reflexivity.
Qed.

(** C2.  The decision is the first band, in the order chainsaw, axe,
    handsaw, whose maximum is strictly above the threshold 0.3, and no
    activity when there is none; maxima 0.4 (chainsaw), 0.5 (axe) and 0.6
    (handsaw) give chainsaw. *)
Theorem decision_follows_priority_order (inputBuffer : list float) :
  performFFT inputBuffer
    = spec_decision (band_maxima (fft_execute (fft_input_of inputBuffer))) /\
  (forall m,
     decision m = spec_decision m /\
     (decision m = Detected Chainsaw <->
        (SOME_THRESHOLD <? max_chainsaw_magnitude m)%float = true) /\
     (decision m = Detected Axe <->
        (SOME_THRESHOLD <? max_chainsaw_magnitude m)%float = false /\
        (SOME_THRESHOLD <? max_axe_magnitude m)%float = true) /\
     (decision m = Detected Handsaw <->
        (SOME_THRESHOLD <? max_chainsaw_magnitude m)%float = false /\
        (SOME_THRESHOLD <? max_axe_magnitude m)%float = false /\
        (SOME_THRESHOLD <? max_saw_magnitude m)%float = true) /\
     (decision m = NoActivity <->
        forall b, (SOME_THRESHOLD <? band_max m b)%float = false)) /\
  decision (Maxima (to_float32 0.5) (to_float32 0x1.3333333333333p-1)
                   (to_float32 0x1.999999999999ap-2)) = Detected Chainsaw.
Proof.
  split; [ | split].
  - unfold performFFT. apply decision_spec.
  - intros m. split; [apply decision_spec | ].
    unfold decision.
    destruct (SOME_THRESHOLD <? max_chainsaw_magnitude m)%float eqn:Hc;
      destruct (SOME_THRESHOLD <? max_axe_magnitude m)%float eqn:Ha;
      destruct (SOME_THRESHOLD <? max_saw_magnitude m)%float eqn:Hs;
      repeat split; intros; try discriminate; try (intuition congruence);
      try match goal with
          | b : band |- _ => destruct b; simpl; assumption
          | H : forall b : band, _ |- _ =>
              pose proof (H Axe); pose proof (H Handsaw); pose proof (H Chainsaw);
              simpl in *; congruence
          end.
  - vm_compute. reflexivity.
Qed.

Lemma in_band_closed (b : band) (f : float) :
  in_band b f = closed_range (minFreq b) (maxFreq b) f.
Proof. destruct b; reflexivity. Qed.

(** The test of the source, at any frequency: it is the one of the closed
    range from [minFreq] to [maxFreq], that is the test of the half-open
    range, or equality with [maxFreq]; a whole number of hertz from 0 to
    300 passes the test of the axe band from 20 to 60, of the handsaw band
    from 5 to 30 and of the chainsaw band from 50 to 250, bounds included. *)
Theorem in_band_is_closed_range (b : band) (f : float) :
  in_band b f = closed_range (minFreq b) (maxFreq b) f /\
  in_band b f
    = (minFreq b <=? f)%float && ((f <? maxFreq b)%float || (f =? maxFreq b)%float) /\
  in_band b (maxFreq b) = true /\
  forall n, 0 <= n <= 300 ->
    in_band b (float_of_int n)
      = match b with
        | Axe => (20 <=? n) && (n <=? 60)
        | Handsaw => (5 <=? n) && (n <=? 30)
        | Chainsaw => (50 <=? n) && (n <=? 250)
        end.
Proof.
  split; [apply in_band_closed | split; [ | split]].
  - rewrite in_band_closed. unfold closed_range.
    rewrite (float_leb_ltb_eqb f (maxFreq b)). reflexivity.
  - destruct b; vm_compute; reflexivity.
  - intros n Hn.
    assert (Hall :
      forallb (fun k =>
        forallb (fun c =>
          Bool.eqb (in_band c (float_of_int k))
            match c with
            | Axe => (20 <=? k) && (k <=? 60)
            | Handsaw => (5 <=? k) && (k <=? 30)
            | Chainsaw => (50 <=? k) && (k <=? 250)
            end) [Axe; Handsaw; Chainsaw]) (seqZ 0 301) = true)
      by (vm_compute; reflexivity).
    rewrite forallb_forall in Hall.
    assert (Hin : In n (seqZ 0 301)).
    { apply list_elem_of_In, elem_of_seqZ. lia. }
    specialize (Hall n Hin). rewrite forallb_forall in Hall.
    assert (Hb : In b [Axe; Handsaw; Chainsaw]) by (destruct b; simpl; tauto).
    specialize (Hall b Hb). apply Bool.eqb_prop in Hall. exact Hall.
Qed.




Lemma first_match_branches (f : float) :
  first_match f
    = if in_band Axe f then Some Axe
      else if in_band Handsaw f then Some Handsaw
      else if in_band Chainsaw f then Some Chainsaw
      else None.
Proof. reflexivity. Qed.

Ltac case_branches frequency :=
  destruct (in_band Axe frequency) eqn:Haxe;
    [ | destruct (in_band Handsaw frequency) eqn:Hsaw;
        [ | destruct (in_band Chainsaw frequency) eqn:Hchain]].

Ltac case_update magnitude :=
  try match goal with
      | |- context [(?x <? magnitude)%float] =>
          destruct (x <? magnitude)%float eqn:Hgt
      end.

Ltac read_maxima :=
  cbn [band_max max_axe_magnitude max_saw_magnitude max_chainsaw_magnitude].

(** C5.  A bin changes the maximum of at most one band, the first one in
    the order of the branches (axe, handsaw, chainsaw) whose range holds
    its frequency: where two ranges overlap, the band of the later branch
    keeps its maximum. *)
Theorem score_bin_updates_first_match (m : maxima) (frequency magnitude : float) :
  (forall b, band_max (score_bin m frequency magnitude) b <> band_max m b ->
     first_match frequency = Some b /\
     band_max (score_bin m frequency magnitude) b = magnitude /\
     (band_max m b <? magnitude)%float = true) /\
  (forall b1 b2,
     band_max (score_bin m frequency magnitude) b1 <> band_max m b1 ->
     band_max (score_bin m frequency magnitude) b2 <> band_max m b2 ->
     b1 = b2) /\
  (forall b, first_match frequency = Some b ->
     (band_max m b <? magnitude)%float = true ->
     band_max (score_bin m frequency magnitude) b = magnitude) /\
  (in_band Axe frequency = true ->
     band_max (score_bin m frequency magnitude) Handsaw = band_max m Handsaw /\
     band_max (score_bin m frequency magnitude) Chainsaw = band_max m Chainsaw) /\
  (in_band Handsaw frequency = true ->
     band_max (score_bin m frequency magnitude) Chainsaw = band_max m Chainsaw).
Proof.
  assert (Hchanged : forall b,
    band_max (score_bin m frequency magnitude) b <> band_max m b ->
    first_match frequency = Some b /\
    band_max (score_bin m frequency magnitude) b = magnitude /\
    (band_max m b <? magnitude)%float = true).
  { intros b. rewrite first_match_branches. unfold score_bin.
    case_branches frequency; case_update magnitude;
      destruct b; read_maxima; intros Hne;
      try (exfalso; apply Hne; reflexivity);
      repeat split; assumption. }
  split; [exact Hchanged | split; [ | split; [ | split]]].
  - intros b1 b2 H1 H2.
    destruct (Hchanged b1 H1) as [E1 _]. destruct (Hchanged b2 H2) as [E2 _].
    congruence.
  - intros b. rewrite first_match_branches. unfold score_bin.
    case_branches frequency; intros Hb; inversion Hb; subst b;
      read_maxima; intros ->; reflexivity.
  - intros Hin. unfold score_bin. rewrite Hin.
    case_update magnitude; split; reflexivity.
  - intros Hin. unfold score_bin. rewrite Hin.
    destruct (in_band Axe frequency); case_update magnitude; reflexivity.
Qed.

(** C4, at the first scored bin.  With more than five samples the code's
    frequency of bin 1 is 0, which is not the exact quotient
    [SAMPLING_FREQUENCY / SAMPLES]: the division is the one of [int]. *)
Theorem bin_frequency_is_truncated :
  5 < SAMPLES ->
  1 ∈ scored_bins /\
  bin_frequency_int 1 = 0 /\
  float_value (bin_frequency 1) = Some 0%Q /\
  ~ (0 == exact_frequency 1)%Q.
Proof.
  intros Hs.
  assert (Hq : bin_frequency_int 1 = 0).
  { unfold bin_frequency_int, SAMPLING_FREQUENCY.
    rewrite int32_id by lia. apply Z.quot_small. lia. }
  repeat split.
  - apply scored_bins_spec.
    assert (2 <= SAMPLES ÷ 2) by (apply Z.quot_le_lower_bound; lia). lia.
  - exact Hq.
  - unfold bin_frequency. rewrite Hq. vm_compute. reflexivity.
  - unfold exact_frequency, SAMPLING_FREQUENCY, Qeq. simpl. lia.
Qed.

(** ** The acquisition *)

Lemma load_Some {A : Type} (a : list A) (i : Z) :
  0 <= i < Z.of_nat (length a) -> exists v, load a i = Some v.
Proof.
  intros Hi. unfold load.
  destruct (Z.leb_spec 0 i); [ | lia].
  apply lookup_lt_is_Some. lia.
Qed.

Lemma store_Some {A : Type} (a : list A) (i : Z) (v : A) :
  0 <= i < Z.of_nat (length a) -> store a i v = Some (<[Z.to_nat i := v]> a).
Proof.
  intros Hi. unfold store.
  destruct (Z.leb_spec 0 i); [ | lia].
  destruct (Z.ltb_spec i (Z.of_nat (length a))); [reflexivity | lia].
Qed.

(** A store that succeeds has written inside the array. *)
Lemma store_inv {A : Type} (a a' : list A) (i : Z) (v : A) :
  store a i v = Some a' ->
  0 <= i < Z.of_nat (length a) /\ a' = <[Z.to_nat i := v]> a.
Proof.
  unfold store.
  destruct (Z.leb_spec 0 i); destruct (Z.ltb_spec i (Z.of_nat (length a)));
    simpl; intros E; inversion E; subst. split; [lia | reflexivity].
Qed.

Lemma block_offsets_spec (i : Z) :
  i ∈ block_offsets -> 0 <= i /\ i <= BLOCK_SIZE - 6 /\ i mod 6 = 0.
Proof.
  unfold block_offsets. rewrite list_elem_of_fmap.
  intros (k & -> & Hk). apply elem_of_seqZ in Hk.
  pose proof (Z.mul_div_le (BLOCK_SIZE - 6) 6 ltac:(lia)).
  repeat split; [lia | lia | ].
  rewrite Z.mul_comm. apply Z.mod_mul. lia.
Qed.

(** Once the buffer is full the loop of line 125 does nothing. *)
Lemma extract_block_full (offsets block : list Z) (buffer : list float)
    (samplesRead : Z) :
  MAX_SAMPLES <= samplesRead ->
  extract_block offsets block buffer samplesRead = Some (buffer, samplesRead).
Proof.
  intros Hfull. destruct offsets as [ | i rest]; simpl; [reflexivity | ].
  destruct (Z.ltb_spec samplesRead MAX_SAMPLES); [lia | reflexivity].
Qed.

Lemma extract_block_safe (offsets block : list Z) :
  (forall i, i ∈ offsets -> 0 <= i /\ i + 1 < Z.of_nat (length block)) ->
  forall (buffer : list float) (samplesRead : Z),
    buffer_ok buffer -> 0 <= samplesRead <= MAX_SAMPLES ->
    exists buffer' samplesRead',
      extract_block offsets block buffer samplesRead
        = Some (buffer', samplesRead') /\
      buffer_ok buffer' /\
      samplesRead <= samplesRead' <= MAX_SAMPLES /\
      samplesRead' <= samplesRead + Z.of_nat (length offsets) /\
      forall k : nat,
        (Z.of_nat k < samplesRead \/ samplesRead' <= Z.of_nat k) ->
        buffer' !! k = buffer !! k.
Proof.
  induction offsets as [ | i rest IH]; intros Hoff buffer samplesRead Hbuf Hn.
  - exists buffer, samplesRead. simpl.
    repeat split; try lia; try assumption; reflexivity.
  - simpl. destruct (Z.ltb_spec samplesRead MAX_SAMPLES) as [Hroom | Hfull].
    + destruct (Hoff i ltac:(left)) as [Hi0 Hi1].
      destruct (load_Some block i ltac:(lia)) as [hi ->].
      destruct (load_Some block (i + 1) ltac:(lia)) as [lo ->].
      unfold buffer_ok in Hbuf.
      simpl. rewrite store_Some by lia. simpl.
      destruct (IH (fun j Hj => Hoff j ltac:(right; exact Hj))
                  (<[Z.to_nat samplesRead := g_force hi lo]> buffer)
                  (samplesRead + 1)) as (b' & n' & -> & Hb' & Hn' & Hlen & Hsame).
      { unfold buffer_ok. rewrite length_insert. exact Hbuf. }
      { lia. }
      exists b', n'. repeat split; try lia; [exact Hb' | ].
      intros k Hk. rewrite Hsame by lia.
      apply list_lookup_insert_ne. lia.
    + exists buffer, samplesRead.
      repeat split; try lia; try assumption; reflexivity.
Qed.

Lemma poll_loop_full (turns : list poll) (buffer : list float) (samplesRead : Z) :
  MAX_SAMPLES <= samplesRead ->
  poll_loop turns buffer samplesRead = Some (buffer, samplesRead).
Proof.
  intros Hfull. induction turns as [ | p rest IH]; simpl; [reflexivity | ].
  destruct (BLOCK_SIZE <=? fifoCount p); [ | exact IH].
  rewrite extract_block_full by exact Hfull. simpl. exact IH.
Qed.

Lemma poll_loop_safe (turns : list poll) :
  Forall poll_ok turns ->
  forall (buffer : list float) (samplesRead : Z),
    buffer_ok buffer -> 0 <= samplesRead <= MAX_SAMPLES ->
    exists buffer' samplesRead',
      poll_loop turns buffer samplesRead = Some (buffer', samplesRead') /\
      buffer_ok buffer' /\
      samplesRead <= samplesRead' <= MAX_SAMPLES /\
      forall k : nat,
        (Z.of_nat k < samplesRead \/ samplesRead' <= Z.of_nat k) ->
        buffer' !! k = buffer !! k.
Proof.
  induction 1 as [ | p rest Hp Hrest IH]; intros buffer samplesRead Hbuf Hn.
  - exists buffer, samplesRead. simpl.
    repeat split; try lia; try assumption; reflexivity.
  - simpl. destruct (Z.leb_spec BLOCK_SIZE (fifoCount p)) as [Hblock | Hshort].
    + destruct (extract_block_safe block_offsets (fifoBuffer p)) with
        (buffer := buffer) (samplesRead := samplesRead)
        as (b1 & n1 & -> & Hb1 & Hn1 & _ & Hsame1); [ | exact Hbuf | exact Hn | ].
      { intros i Hi. apply block_offsets_spec in Hi.
        rewrite (Hp Hblock). lia. }
      simpl. destruct (IH b1 n1 Hb1 ltac:(lia))
        as (b2 & n2 & -> & Hb2 & Hn2 & Hsame2).
      exists b2, n2. repeat split; try lia; [exact Hb2 | ].
      intros k Hk. rewrite Hsame2 by lia. apply Hsame1. lia.
    + apply IH; assumption.
Qed.

(** C9.  The acquisition never writes outside the sample buffer: it runs
    without a fault, the buffer keeps its [MAX_SAMPLES] slots, the count of
    samples stays between 0 and [MAX_SAMPLES], the slots from the count on
    are untouched, and with a full buffer further blocks change nothing. *)
Theorem fill_buffer_within_capacity (turns : list poll) (buffer : list float) :
  buffer_ok buffer ->
  Forall poll_ok turns ->
  (exists buffer' samplesRead,
     fill_buffer turns buffer = Some (buffer', samplesRead) /\
     buffer_ok buffer' /\
     0 <= samplesRead <= MAX_SAMPLES /\
     forall k : nat, samplesRead <= Z.of_nat k -> buffer' !! k = buffer !! k) /\
  (forall (b b' : list float) n v,
     store b n v = Some b' -> 0 <= n < Z.of_nat (length b)) /\
  (forall i rest block b n,
     MAX_SAMPLES <= n -> extract_block (i :: rest) block b n = Some (b, n)) /\
  (forall more b, poll_loop more b MAX_SAMPLES = Some (b, MAX_SAMPLES)).
Proof.
  intros Hbuf Hturns. split; [ | split; [ | split]].
  - unfold fill_buffer.
    assert (H0 : 0 <= MAX_SAMPLES) by (unfold buffer_ok in Hbuf; lia).
    destruct (poll_loop_safe turns Hturns buffer 0 Hbuf ltac:(lia))
      as (b' & n' & E & Hb' & Hn' & Hsame).
    exists b', n'. repeat split; try lia; [exact E | exact Hb' | ].
    intros k Hk. apply Hsame. right. exact Hk.
  - intros b b' n v E. apply store_inv in E. exact (proj1 E).
  - intros i rest block b n Hn. apply extract_block_full. exact Hn.
  - intros more b. apply poll_loop_full. lia.
Qed.

(** ** The scheduler *)

(** *** One attempt *)

Lemma attempt_init_failure (phase retryCount : Z) (w : world) :
  testConnection env (inits w) = false ->
  attempt phase retryCount w
    = Returns ((false, retryCount + 1, NextTurn),
               World (remainingCycles w) (inputBuffer w)
                 (trace w ++ failed_attempt)
                 (S (inits w)) (stores w) (mounts w) (acquisitions w)).
Proof.
  intros Hinit. unfold attempt, mbind, M_bind, emit, initializeMPU. simpl.
  rewrite Hinit. simpl. unfold mret, M_ret.
  rewrite <- app_assoc. reflexivity.
Qed.

Lemma attempt_stored (phase retryCount : Z) (w : world)
    (buffer : list float) (samplesRead : Z) :
  testConnection env (inits w) = true ->
  fill_buffer (fifo_turns env (acquisitions w)) (inputBuffer w)
    = Some (buffer, samplesRead) ->
  logging env (stores w) = true ->
  attempt phase retryCount w
    = Returns ((true, retryCount, NextTurn),
               World (remainingCycles w) buffer
                 (trace w ++ recorded_attempt phase samplesRead true
                          ++ [ToggleSensorPower false;
                              PerformFFT (performFFT buffer)])
                 (S (inits w)) (S (stores w)) (mounts w) (S (acquisitions w))).
Proof.
  intros Hinit Hfill Hlog.
  unfold attempt, mbind, M_bind, emit, initializeMPU,
    readAccelerometerDataForPhase, logDataToSPIFFS, run_performFFT, emit.
  simpl. rewrite Hinit. simpl. rewrite Hfill. simpl. rewrite Hlog. simpl.
  unfold mret, M_ret. rewrite <- !app_assoc. reflexivity.
Qed.

Lemma attempt_store_failure (phase retryCount : Z) (w : world)
    (buffer : list float) (samplesRead : Z) :
  testConnection env (inits w) = true ->
  fill_buffer (fifo_turns env (acquisitions w)) (inputBuffer w)
    = Some (buffer, samplesRead) ->
  logging env (stores w) = false ->
  attempt phase retryCount w
    = Returns ((false, retryCount,
                if remount env (mounts w) then NextTurn else Break),
               World (remainingCycles w) buffer
                 (trace w ++ recorded_attempt phase samplesRead false
                          ++ [SpiffsEnd;
                              SpiffsBegin true (remount env (mounts w))])
                 (S (inits w)) (S (stores w)) (S (mounts w))
                 (S (acquisitions w))).
Proof.
  intros Hinit Hfill Hlog.
  unfold attempt, mbind, M_bind, emit, initializeMPU,
    readAccelerometerDataForPhase, logDataToSPIFFS, SPIFFS_begin, emit.
  simpl. rewrite Hinit. simpl. rewrite Hfill. simpl. rewrite Hlog. simpl.
  unfold mret, M_ret. rewrite <- !app_assoc.
  destruct (remount env (mounts w)); reflexivity.
Qed.

(** *** The attempt loop *)

Lemma attempt_loop_exit (fuel : nat) (phase : Z) (phaseCompleted : bool)
    (retryCount : Z) (w : world) :
  phaseCompleted = true \/ 3 <= retryCount ->
  attempt_loop fuel phase phaseCompleted retryCount w
    = Returns ((phaseCompleted, retryCount), w).
Proof.
  intros Hexit.
  assert (Hcond : negb phaseCompleted && (retryCount <? 3) = false).
  { destruct Hexit as [-> | Hr]; [reflexivity | ].
    destruct (Z.ltb_spec retryCount 3); [lia | apply andb_false_r]. }
  destruct fuel; simpl; rewrite Hcond; reflexivity.
Qed.

Lemma attempt_loop_turn (fuel : nat) (phase retryCount : Z) (w : world) :
  retryCount < 3 ->
  attempt_loop (S fuel) phase false retryCount w
    = match attempt phase retryCount w with
      | Returns ((phaseCompleted', retryCount', Break), w') =>
          Returns ((phaseCompleted', retryCount'), w')
      | Returns ((phaseCompleted', retryCount', NextTurn), w') =>
          attempt_loop fuel phase phaseCompleted' retryCount' w'
      | Faults => Faults
      | OutOfFuel => OutOfFuel
      end.
Proof.
  intros Hr. simpl.
  destruct (Z.ltb_spec retryCount 3) as [_ | ?]; [ | lia]. simpl.
  unfold mbind, M_bind.
  destruct (attempt phase retryCount w) as [[[[pc rc] how] w'] | | ];
    [destruct how | | ]; reflexivity.
Qed.

(** From [retryCount = 3 - n], [n] failed initializations in a row end the
    loop with the phase not completed. *)
Lemma attempt_loop_init_failures (n : nat) :
  forall (fuel : nat) (phase retryCount : Z) (w : world),
    retryCount + Z.of_nat n = 3 ->
    (n <= fuel)%nat ->
    (forall k, (k < n)%nat -> testConnection env (inits w + k) = false) ->
    attempt_loop fuel phase false retryCount w
      = Returns ((false, 3),
                 World (remainingCycles w) (inputBuffer w)
                   (trace w ++ concat (replicate n failed_attempt))
                   (inits w + n) (stores w) (mounts w) (acquisitions w)).
Proof.
  induction n as [ | n IH]; intros fuel phase retryCount w Hr Hfuel Hfail.
  - rewrite attempt_loop_exit by (right; lia).
    replace retryCount with 3 by lia.
    destruct w; simpl. rewrite app_nil_r, Nat.add_0_r. reflexivity.
  - destruct fuel as [ | fuel]; [lia | ].
    rewrite attempt_loop_turn by lia.
    rewrite attempt_init_failure
      by (rewrite <- (Nat.add_0_r (inits w)); apply Hfail; lia).
    rewrite (IH fuel phase (retryCount + 1)); simpl; [ | lia | lia | ].
    + rewrite <- app_assoc, Nat.add_succ_r. reflexivity.
    + intros k Hk. rewrite <- Nat.add_succ_r. apply Hfail. lia.
Qed.

(** C6.  Three failed initializations in a row: wherever in a phase they
    start, the attempt loop is left with the phase not completed once the
    retry count is at 3, and without a call of the classifier; a phase that
    starts with them takes exactly one cycle off [remainingCycles]. *)
Theorem init_failures_abandon_phase (fuel : nat) (phase retryCount : Z)
    (w : world) :
  0 <= retryCount < 3 ->
  (3 <= fuel)%nat ->
  - 2147483648 < remainingCycles w < 2147483648 ->
  (forall k, (k < 3)%nat -> testConnection env (inits w + k) = false) ->
  let attempts_left := Z.to_nat (3 - retryCount) in
  let three_attempts := failed_attempt ++ failed_attempt ++ failed_attempt in
  attempt_loop fuel phase false retryCount w
    = Returns ((false, 3),
               World (remainingCycles w) (inputBuffer w)
                 (trace w ++ concat (replicate attempts_left failed_attempt))
                 (inits w + attempts_left) (stores w) (mounts w)
                 (acquisitions w)) /\
  existsb is_PerformFFT (concat (replicate attempts_left failed_attempt))
    = false /\
  run_phase fuel phase w
    = Returns (false,
               World (remainingCycles w - 1) (inputBuffer w)
                 (trace w
                    ++ RecordingPhase phase (remainingCycles w) :: three_attempts)
                 (inits w + 3) (stores w) (mounts w) (acquisitions w)) /\
  existsb is_PerformFFT
    (RecordingPhase phase (remainingCycles w) :: three_attempts) = false.
Proof.
  intros Hretry Hfuel Hrange Hfail attempts_left three_attempts.
  split; [ | split; [ | split]].
  - apply attempt_loop_init_failures.
    + unfold attempts_left. lia.
    + unfold attempts_left. lia.
    + intros k Hk. apply Hfail. unfold attempts_left in Hk. lia.
  - assert (Hcases : retryCount = 0 \/ retryCount = 1 \/ retryCount = 2) by lia.
    unfold attempts_left.
    destruct Hcases as [-> | [-> | ->]]; reflexivity.
  - unfold run_phase, mbind, M_bind, emit, decrement_remainingCycles. simpl.
    rewrite (attempt_loop_init_failures 3) by (simpl; assumption || lia).
    simpl. unfold mret, M_ret. rewrite int32_id by lia.
    rewrite <- app_assoc. reflexivity.
  - reflexivity.
Qed.

(** C7.  A store that fails is followed by exactly one remount, [SPIFFS.end]
    and then [SPIFFS.begin(true)], and leaves the retry count as it was.
    When the remount fails the attempt loop is left at once, the phase not
    completed and the classifier not called; when it succeeds the loop goes
    on with the same retry count. *)
Theorem store_failure_remounts_once (fuel : nat) (phase retryCount : Z)
    (w : world) :
  retryCount < 3 ->
  buffer_ok (inputBuffer w) ->
  Forall poll_ok (fifo_turns env (acquisitions w)) ->
  testConnection env (inits w) = true ->
  logging env (stores w) = false ->
  exists buffer samplesRead,
    let events :=
      recorded_attempt phase samplesRead false
        ++ [SpiffsEnd; SpiffsBegin true (remount env (mounts w))] in
    let w' :=
      World (remainingCycles w) buffer (trace w ++ events)
        (S (inits w)) (S (stores w)) (S (mounts w)) (S (acquisitions w)) in
    fill_buffer (fifo_turns env (acquisitions w)) (inputBuffer w)
      = Some (buffer, samplesRead) /\
    attempt phase retryCount w
      = Returns ((false, retryCount,
                  if remount env (mounts w) then NextTurn else Break), w') /\
    existsb is_PerformFFT events = false /\
    (remount env (mounts w) = false ->
       attempt_loop (S fuel) phase false retryCount w
         = Returns ((false, retryCount), w')) /\
    (remount env (mounts w) = true ->
       attempt_loop (S fuel) phase false retryCount w
         = attempt_loop fuel phase false retryCount w').
Proof.
  intros Hr Hbuf Hturns Hinit Hlog.
  assert (H0 : 0 <= MAX_SAMPLES) by (unfold buffer_ok in Hbuf; lia).
  destruct (poll_loop_safe _ Hturns (inputBuffer w) 0 Hbuf ltac:(lia))
    as (buffer & samplesRead & Hfill & _).
  exists buffer, samplesRead. cbv zeta.
  pose proof (attempt_store_failure phase retryCount w buffer samplesRead
                Hinit Hfill Hlog) as Hattempt.
  split; [exact Hfill | split; [exact Hattempt | split; [ | split]]].
  - unfold recorded_attempt. simpl. reflexivity.
  - intros Hmount. rewrite attempt_loop_turn by exact Hr.
    rewrite Hattempt, Hmount. reflexivity.
  - intros Hmount. rewrite attempt_loop_turn by exact Hr.
    rewrite Hattempt, Hmount. reflexivity.
Qed.

(** X12.  After a failed store and a successful remount, a second attempt
    whose store succeeds completes the phase, with one call of the
    classifier and the retry count as it was. *)
Lemma store_recovers_after_remount (fuel : nat) (phase retryCount : Z)
    (w : world) (buffer1 buffer2 : list float) (n1 n2 : Z) :
  retryCount < 3 ->
  testConnection env (inits w) = true ->
  fill_buffer (fifo_turns env (acquisitions w)) (inputBuffer w)
    = Some (buffer1, n1) ->
  logging env (stores w) = false ->
  remount env (mounts w) = true ->
  testConnection env (S (inits w)) = true ->
  fill_buffer (fifo_turns env (S (acquisitions w))) buffer1
    = Some (buffer2, n2) ->
  logging env (S (stores w)) = true ->
  attempt_loop (S (S fuel)) phase false retryCount w
    = Returns ((true, retryCount),
               World (remainingCycles w) buffer2
                 (trace w
                    ++ recorded_attempt phase n1 false
                    ++ [SpiffsEnd; SpiffsBegin true true]
                    ++ recorded_attempt phase n2 true
                    ++ [ToggleSensorPower false;
                        PerformFFT (performFFT buffer2)])
                 (S (S (inits w))) (S (S (stores w))) (S (mounts w))
                 (S (S (acquisitions w)))).
Proof.
  intros Hr Hinit1 Hfill1 Hlog1 Hmount Hinit2 Hfill2 Hlog2.
  rewrite attempt_loop_turn by exact Hr.
  rewrite (attempt_store_failure _ _ _ _ _ Hinit1 Hfill1 Hlog1), Hmount.
  rewrite attempt_loop_turn by exact Hr.
  rewrite (attempt_stored _ _ _ buffer2 n2) by assumption.
  rewrite attempt_loop_exit by (left; reflexivity).
  simpl. rewrite <- !app_assoc. reflexivity.
Qed.

(** C8.  Entered with no cycle left, [monitorSensors] signals the halt and
    returns: that call is the only event, no phase is opened, and no sensor,
    storage or classifier call is made. *)
Theorem exhausted_budget_halts (fuel : nat) (w : world) :
  remainingCycles w <= 0 ->
  monitorSensors fuel w
    = Returns (tt,
               World (remainingCycles w) (inputBuffer w)
                 (trace w ++ [QuickBlinkAndHalt])
                 (inits w) (stores w) (mounts w) (acquisitions w)).
Proof.
  intros Hexhausted. unfold monitorSensors.
  destruct (Z.leb_spec (remainingCycles w) 0) as [_ | Hpos]; [ | lia].
  reflexivity.
Qed.

(** *** Invariants of a pass *)

Lemma scheduler_events_app (t1 t2 : list event) :
  scheduler_events (t1 ++ t2) = scheduler_events t1 ++ scheduler_events t2.
Proof. apply List.filter_app. Qed.

Lemma phases_opened_marks (remaining : Z) (phases : list Z) :
  phases_opened (phase_marks remaining phases) = phases.
Proof.
  revert remaining. induction phases as [ | p rest IH]; intros remaining.
  - reflexivity.
  - simpl. unfold phases_opened in *. simpl. rewrite IH. reflexivity.
Qed.

Lemma extract_block_length (offsets block : list Z) :
  forall (buffer buffer' : list float) (n n' : Z),
    extract_block offsets block buffer n = Some (buffer', n') ->
    length buffer' = length buffer.
Proof.
  induction offsets as [ | i rest IH]; intros buffer buffer' n n'; simpl.
  - intros E. inversion E. reflexivity.
  - destruct (n <? MAX_SAMPLES); [ | intros E; inversion E; reflexivity].
    destruct (load block i) as [hi | ]; [ | discriminate]. simpl.
    destruct (load block (i + 1)) as [lo | ]; [ | discriminate]. simpl.
    destruct (store buffer n (g_force hi lo)) as [b1 | ] eqn:Hstore;
      [ | discriminate].
    simpl. intros E. apply IH in E. rewrite E.
    apply store_inv in Hstore. destruct Hstore as [_ ->].
    apply length_insert.
Qed.

Lemma poll_loop_length (turns : list poll) :
  forall (buffer buffer' : list float) (n n' : Z),
    poll_loop turns buffer n = Some (buffer', n') ->
    length buffer' = length buffer.
Proof.
  induction turns as [ | p rest IH]; intros buffer buffer' n n'; simpl.
  - intros E. inversion E. reflexivity.
  - destruct (BLOCK_SIZE <=? fifoCount p); [ | apply IH].
    destruct (extract_block block_offsets (fifoBuffer p) buffer n)
      as [[b1 n1] | ] eqn:Hblock; [ | discriminate].
    simpl. intros E. apply IH in E. rewrite E.
    eapply extract_block_length. exact Hblock.
Qed.

Lemma attempt_acquisition_fault (phase retryCount : Z) (w : world) :
  testConnection env (inits w) = true ->
  fill_buffer (fifo_turns env (acquisitions w)) (inputBuffer w) = None ->
  attempt phase retryCount w = Faults.
Proof.
  intros Hinit Hfill.
  unfold attempt, mbind, M_bind, emit, initializeMPU,
    readAccelerometerDataForPhase.
  simpl. rewrite Hinit. simpl. rewrite Hfill. reflexivity.
Qed.

Lemma attempt_inv (phase retryCount : Z) (w w' : world)
    (phaseCompleted' : bool) (retryCount' : Z) (how : turn_end) :
  attempt phase retryCount w
    = Returns ((phaseCompleted', retryCount', how), w') ->
  remainingCycles w' = remainingCycles w /\
  length (inputBuffer w') = length (inputBuffer w) /\
  scheduler_events (trace w') = scheduler_events (trace w) /\
  attempt_end retryCount w w' phaseCompleted' retryCount' how.
Proof.
  destruct (testConnection env (inits w)) eqn:Hinit.
  - destruct (fill_buffer (fifo_turns env (acquisitions w)) (inputBuffer w))
      as [[buffer n] | ] eqn:Hfill.
    + pose proof (poll_loop_length _ _ _ _ _ Hfill) as Hlen.
      destruct (logging env (stores w)) eqn:Hlog.
      * rewrite (attempt_stored _ _ _ _ _ Hinit Hfill Hlog).
        intros E. inversion E; subst; simpl.
        rewrite scheduler_events_app. simpl. rewrite app_nil_r.
        repeat split; try assumption; try reflexivity. constructor.
      * rewrite (attempt_store_failure _ _ _ _ _ Hinit Hfill Hlog).
        intros E. inversion E; subst; simpl.
        rewrite scheduler_events_app. simpl. rewrite app_nil_r.
        repeat split; try assumption; try reflexivity.
        destruct (remount env (mounts w)); constructor;
          simpl; try assumption; reflexivity.
    + rewrite (attempt_acquisition_fault _ _ _ Hinit Hfill). discriminate.
  - rewrite (attempt_init_failure _ _ _ Hinit).
    intros E. inversion E; subst; simpl.
    rewrite scheduler_events_app. simpl. rewrite app_nil_r.
    repeat split; try reflexivity. constructor. reflexivity.
Qed.

Lemma attempt_total (phase retryCount : Z) (w : world) :
  buffer_ok (inputBuffer w) ->
  Forall poll_ok (fifo_turns env (acquisitions w)) ->
  exists r w', attempt phase retryCount w = Returns (r, w').
Proof.
  intros Hbuf Hturns.
  assert (H0 : 0 <= MAX_SAMPLES) by (unfold buffer_ok in Hbuf; lia).
  destruct (poll_loop_safe _ Hturns (inputBuffer w) 0 Hbuf ltac:(lia))
    as (buffer & n & Hfill & _).
  destruct (testConnection env (inits w)) eqn:Hinit.
  - destruct (logging env (stores w)) eqn:Hlog.
    + rewrite (attempt_stored _ _ _ _ _ Hinit Hfill Hlog). eauto.
    + rewrite (attempt_store_failure _ _ _ _ _ Hinit Hfill Hlog). eauto.
  - rewrite (attempt_init_failure _ _ _ Hinit). eauto.
Qed.

Lemma attempt_loop_inv (fuel : nat) (phase : Z) :
  forall (phaseCompleted : bool) (retryCount : Z) (w w' : world)
         (r : bool * Z),
    attempt_loop fuel phase phaseCompleted retryCount w = Returns (r, w') ->
    remainingCycles w' = remainingCycles w /\
    length (inputBuffer w') = length (inputBuffer w) /\
    scheduler_events (trace w') = scheduler_events (trace w).
Proof.
  induction fuel as [ | fuel IH]; intros pc rc w w' r.
  - simpl. destruct (negb pc && (rc <? 3)); [discriminate | ].
    intros E. inversion E; subst. repeat split; reflexivity.
  - destruct pc.
    + rewrite attempt_loop_exit by (left; reflexivity).
      intros E. inversion E; subst. repeat split; reflexivity.
    + destruct (Z_lt_le_dec rc 3) as [Hr | Hr].
      * rewrite attempt_loop_turn by exact Hr.
        destruct (attempt phase rc w) as [[[[pc1 rc1] how] w1] | | ] eqn:Hturn;
          [ | discriminate | discriminate].
        apply attempt_inv in Hturn.
        destruct Hturn as (Hrem & Hlen & Hev & _).
        destruct how.
        -- intros E. apply IH in E. destruct E as (-> & -> & ->).
           repeat split; assumption.
        -- intros E. inversion E; subst. repeat split; assumption.
      * rewrite attempt_loop_exit by (right; exact Hr).
        intros E. inversion E; subst. repeat split; reflexivity.
Qed.

(** *** Termination of the attempt loop *)

(** The loop can spin as long as stores fail and remounts succeed; it ends
    once the stores succeed from the [bound]-th call on. *)
Lemma attempt_loop_total (bound : nat) :
  env_ok ->
  (forall k, (bound <= k)%nat -> logging env k = true) ->
  forall (fuel : nat) (phase : Z) (phaseCompleted : bool) (retryCount : Z)
         (w : world),
    buffer_ok (inputBuffer w) ->
    phaseCompleted = true \/ 3 <= retryCount \/
      (Z.to_nat (3 - retryCount) + (bound - stores w) + 1 <= fuel)%nat ->
    exists r w',
      attempt_loop fuel phase phaseCompleted retryCount w = Returns (r, w').
Proof.
  intros Henv Hrecover.
  induction fuel as [ | fuel IH]; intros phase pc rc w Hbuf Hmeasure.
  - destruct Hmeasure as [-> | [Hr | Hfuel]]; [ | | lia].
    + rewrite attempt_loop_exit by (left; reflexivity). eauto.
    + rewrite attempt_loop_exit by (right; exact Hr). eauto.
  - destruct pc; [rewrite attempt_loop_exit by (left; reflexivity); eauto | ].
    destruct (Z_lt_le_dec rc 3) as [Hr | Hr];
      [ | rewrite attempt_loop_exit by (right; exact Hr); eauto].
    destruct Hmeasure as [Hpc | [Hr' | Hfuel]]; [discriminate | lia | ].
    rewrite attempt_loop_turn by exact Hr.
    destruct (attempt_total phase rc w Hbuf (Henv _))
      as ([[pc1 rc1] how] & w1 & Hturn).
    rewrite Hturn. apply attempt_inv in Hturn.
    destruct Hturn as (_ & Hlen & _ & Hend).
    assert (Hbuf1 : buffer_ok (inputBuffer w1)).
    { unfold buffer_ok in *. rewrite Hlen. exact Hbuf. }
    destruct Hend as [Hstores | | | Hlog Hstores].
    + apply IH; [exact Hbuf1 | ]. right. right. rewrite Hstores. lia.
    + apply IH; [exact Hbuf1 | ]. left. reflexivity.
    + eauto.
    + apply IH; [exact Hbuf1 | ]. right. right.
      assert (stores w < bound)%nat.
      { destruct (Nat.lt_ge_cases (stores w) bound) as [Hlt | Hge];
          [exact Hlt | ].
        rewrite (Hrecover _ Hge) in Hlog. discriminate. }
      rewrite Hstores. lia.
Qed.

(** *** One phase *)

Lemma run_phase_inv (fuel : nat) (phase : Z) (w w' : world) (completed : bool) :
  run_phase fuel phase w = Returns (completed, w') ->
  remainingCycles w' = int32 (remainingCycles w - 1) /\
  length (inputBuffer w') = length (inputBuffer w) /\
  scheduler_events (trace w')
    = scheduler_events (trace w) ++ [RecordingPhase phase (remainingCycles w)].
Proof.
  unfold run_phase, mbind, M_bind, emit, decrement_remainingCycles. simpl.
  destruct (attempt_loop fuel phase false 0 _) as [[[pc rc] w1] | | ] eqn:Hloop;
    [ | discriminate | discriminate].
  apply attempt_loop_inv in Hloop. simpl in Hloop.
  destruct Hloop as (Hrem & Hlen & Hev).
  unfold mret, M_ret. intros E. inversion E; subst; simpl.
  rewrite Hrem, Hlen, Hev, scheduler_events_app. repeat split; reflexivity.
Qed.

Lemma run_phase_total (bound fuel : nat) (phase : Z) (w : world) :
  env_ok ->
  (forall k, (bound <= k)%nat -> logging env k = true) ->
  (bound + 4 <= fuel)%nat ->
  buffer_ok (inputBuffer w) ->
  exists completed w', run_phase fuel phase w = Returns (completed, w').
Proof.
  intros Henv Hrecover Hfuel Hbuf.
  unfold run_phase, mbind, M_bind, emit, decrement_remainingCycles. simpl.
  match goal with
  | |- context [attempt_loop fuel phase false 0 ?w0] =>
      destruct (attempt_loop_total bound Henv Hrecover fuel phase false 0 w0)
        as ([pc rc] & w1 & ->)
  end.
  - exact Hbuf.
  - right. right. simpl. lia.
  - unfold mret, M_ret. eauto.
Qed.

(** *** The loop over the phases *)

Lemma phase_loop_inv (fuel : nat) (phases : list Z) :
  forall w w' : world,
    remainingCycles w < 2147483648 ->
    - 2147483648 <= remainingCycles w - Z.of_nat (length phases) ->
    phase_loop fuel phases w = Returns (tt, w') ->
    remainingCycles w' = remainingCycles w - Z.of_nat (length phases) /\
    length (inputBuffer w') = length (inputBuffer w) /\
    scheduler_events (trace w')
      = scheduler_events (trace w) ++ phase_marks (remainingCycles w) phases.
Proof.
  induction phases as [ | p rest IH]; intros w w' Hhi Hlo.
  - simpl. unfold mret, M_ret. intros E. inversion E; subst.
    rewrite app_nil_r. repeat split; lia.
  - cbn [phase_loop length phase_marks] in *. unfold mbind, M_bind.
    destruct (run_phase fuel p w) as [[pc w1] | | ] eqn:Hphase;
      [ | discriminate | discriminate].
    apply run_phase_inv in Hphase. destruct Hphase as (Hrem & Hlen & Hev).
    rewrite int32_id in Hrem by lia.
    intros E. apply IH in E; [ | lia | lia].
    destruct E as (-> & -> & ->).
    rewrite Hrem, Hlen, Hev, <- app_assoc. repeat split; simpl; lia.
Qed.

Lemma phase_loop_total (bound fuel : nat) (phases : list Z) :
  env_ok ->
  (forall k, (bound <= k)%nat -> logging env k = true) ->
  (bound + 4 <= fuel)%nat ->
  forall w : world,
    buffer_ok (inputBuffer w) ->
    exists w', phase_loop fuel phases w = Returns (tt, w').
Proof.
  intros Henv Hrecover Hfuel.
  induction phases as [ | p rest IH]; intros w Hbuf.
  - simpl. unfold mret, M_ret. eauto.
  - cbn [phase_loop]. unfold mbind, M_bind.
    destruct (run_phase_total bound fuel p w Henv Hrecover Hfuel Hbuf)
      as (pc & w1 & Hphase).
    rewrite Hphase. apply IH.
    apply run_phase_inv in Hphase. destruct Hphase as (_ & Hlen & _).
    unfold buffer_ok in *. rewrite Hlen. exact Hbuf.
Qed.

(** C10.  The budget is looked at on entry only.  Entered with a positive
    [remainingCycles], a pass that returns has opened the phases 1 to
    [CYCLES_FOR_5_MIN] one after the other, each with one cycle fewer than
    the one before and without ever signalling the halt, and has taken
    [CYCLES_FOR_5_MIN] off [remainingCycles]: a budget below
    [CYCLES_FOR_5_MIN] ends negative.  The pass does return when the stores
    succeed from some call on. *)
Theorem budget_checked_on_entry_only (fuel : nat) (w : world) :
  0 < remainingCycles w < 2147483648 ->
  0 <= CYCLES_FOR_5_MIN < 2147483648 ->
  (forall w', monitorSensors fuel w = Returns (tt, w') ->
     remainingCycles w' = remainingCycles w - CYCLES_FOR_5_MIN /\
     scheduler_events (trace w')
       = scheduler_events (trace w)
           ++ phase_marks (remainingCycles w) (seqZ 1 CYCLES_FOR_5_MIN) /\
     phases_opened (phase_marks (remainingCycles w) (seqZ 1 CYCLES_FOR_5_MIN))
       = seqZ 1 CYCLES_FOR_5_MIN /\
     (remainingCycles w < CYCLES_FOR_5_MIN -> remainingCycles w' < 0)) /\
  (forall bound : nat,
     env_ok ->
     (forall k, (bound <= k)%nat -> logging env k = true) ->
     (bound + 4 <= fuel)%nat ->
     buffer_ok (inputBuffer w) ->
     exists w', monitorSensors fuel w = Returns (tt, w')).
Proof.
  intros Hbudget Hcycles.
  assert (Hentry : monitorSensors fuel w
                   = phase_loop fuel (seqZ 1 CYCLES_FOR_5_MIN) w).
  { unfold monitorSensors.
    destruct (Z.leb_spec (remainingCycles w) 0); [lia | reflexivity]. }
  rewrite Hentry. split.
  - intros w' Hrun.
    apply phase_loop_inv in Hrun; rewrite ?length_seqZ; try lia.
    destruct Hrun as (Hrem & _ & Hev).
    rewrite length_seqZ in Hrem.
    split; [lia | split; [exact Hev | split; [apply phases_opened_marks | lia]]].
  - intros bound Henv Hrecover Hfuel Hbuf.
    apply (phase_loop_total bound fuel _ Henv Hrecover Hfuel w Hbuf).
Qed.

(** * Further facts *)

(** ** The conversion of a sample *)

Lemma count_up_In (n : nat) :
  forall first x, first <= x < first + Z.of_nat n -> In x (count_up n first).
Proof.
  induction n as [ | n IH]; intros first x Hx; [lia | ].
  cbn [count_up]. destruct (Z.eq_dec first x) as [-> | Hne].
  - left. reflexivity.
  - right. apply IH. lia.
Qed.

Lemma lor_bytes (h l : Z) :
  0 <= h < 256 -> 0 <= l < 256 -> Z.lor (Z.shiftl h 8) l = 256 * h + l.
Proof.
  intros Hh Hl.
  assert (Hall :
    forallb (fun a => forallb (fun b =>
      Z.lor (Z.shiftl a 8) b =? 256 * a + b) all_bytes) all_bytes = true)
    by (vm_compute; reflexivity).
  rewrite forallb_forall in Hall.
  assert (Hin : forall x, 0 <= x < 256 -> In x all_bytes).
  { intros x Hx. apply count_up_In. lia. }
  specialize (Hall h (Hin h Hh)). rewrite forallb_forall in Hall.
  specialize (Hall l (Hin l Hl)). apply Z.eqb_eq in Hall. exact Hall.
Qed.

Lemma int16_of_uint16 (u : Z) :
  0 <= u < 65536 -> int16 u = if u <? 32768 then u else u - 65536.
Proof.
  intros Hu. unfold int16, wrap_signed.
  change (2 ^ 16) with 65536. change (2 ^ (16 - 1)) with 32768.
  cbv zeta. rewrite Z.mod_small by lia. reflexivity.
Qed.

Lemma accelX_of_value (hi lo : Z) :
  accelX_of hi lo
    = if 256 * uint8 hi + uint8 lo <? 32768
      then 256 * uint8 hi + uint8 lo
      else 256 * uint8 hi + uint8 lo - 65536.
Proof.
  assert (Hh : 0 <= uint8 hi < 256) by (apply Z.mod_pos_bound; lia).
  assert (Hl : 0 <= uint8 lo < 256) by (apply Z.mod_pos_bound; lia).
  unfold accelX_of. rewrite lor_bytes by assumption.
  apply int16_of_uint16. lia.
Qed.

Lemma accelX_of_range (hi lo : Z) : -32768 <= accelX_of hi lo < 32768.
Proof.
  assert (Hh : 0 <= uint8 hi < 256) by (apply Z.mod_pos_bound; lia).
  assert (Hl : 0 <= uint8 lo < 256) by (apply Z.mod_pos_bound; lia).
  rewrite accelX_of_value.
  destruct (Z.ltb_spec (256 * uint8 hi + uint8 lo) 32768); lia.
Qed.

(** X1.  The two bytes of a sample are read as a big-endian 16-bit
    two's-complement number: the value is in the range of [int16_t] and
    the bytes can be read back from it. *)
Theorem accelX_of_big_endian (hi lo : Z) :
  let u := 256 * uint8 hi + uint8 lo in
  accelX_of hi lo = (if u <? 32768 then u else u - 65536) /\
  -32768 <= accelX_of hi lo < 32768 /\
  (accelX_of hi lo) mod 65536 = u /\
  ((accelX_of hi lo) mod 65536) / 256 = uint8 hi /\
  (accelX_of hi lo) mod 256 = uint8 lo.
Proof.
  intros u.
  assert (Hh : 0 <= uint8 hi < 256) by (apply Z.mod_pos_bound; lia).
  assert (Hl : 0 <= uint8 lo < 256) by (apply Z.mod_pos_bound; lia).
  pose proof (accelX_of_value hi lo) as Hx. fold u in Hx.
  assert (Hm : accelX_of hi lo mod 65536 = u).
  { rewrite Hx. destruct (Z.ltb_spec u 32768).
    - apply Z.mod_small. lia.
    - symmetry. apply (Z.mod_unique_pos _ _ (-1)); lia. }
  split; [exact Hx | split; [apply accelX_of_range | split; [exact Hm | split]]].
  - rewrite Hm. unfold u. symmetry.
    apply (Z.div_unique_pos _ _ _ (uint8 lo)); lia.
  - rewrite Hx. destruct (Z.ltb_spec u 32768).
    + unfold u. symmetry. apply (Z.mod_unique_pos _ _ (uint8 hi)); lia.
    + unfold u. symmetry. apply (Z.mod_unique_pos _ _ (uint8 hi - 256)); lia.
Qed.

(** A 16-bit integer over 16384 needs no rounding, in [double] or in
    [float]. *)
Lemma scaled_int16_narrowing (x : Z) :
  -32768 <= x < 32768 ->
  to_float32 (Z2double x / 16384)%float = (Z2double x / 16384)%float.
Proof.
  intros Hx.
  assert (Hall :
    forallb (fun a =>
      PrimFloat.Leibniz.eqb (to_float32 (Z2double a / 16384)%float)
        (Z2double a / 16384)%float) all_int16 = true)
    by (vm_compute; reflexivity).
  rewrite forallb_forall in Hall.
  apply FloatAxioms.Leibniz.eqb_spec, Hall, count_up_In. lia.
Qed.

Lemma scaled_int16_value (x : Z) :
  -32768 <= x < 32768 ->
  exists q,
    float_value (Z2double x / 16384)%float = Some q /\ (q == x # 16384)%Q.
Proof.
  intros Hx.
  assert (Hall :
    forallb (fun a =>
      match float_value (Z2double a / 16384)%float with
      | Some q => Qeq_bool q (a # 16384)
      | None => false
      end) all_int16 = true)
    by (vm_compute; reflexivity).
  rewrite forallb_forall in Hall.
  assert (Hin : In x all_int16) by (apply count_up_In; lia).
  specialize (Hall x Hin).
  destruct (float_value (Z2double x / 16384)%float) as [q | ];
    [ | discriminate].
  exists q. split; [reflexivity | apply Qeq_bool_iff; exact Hall].
Qed.

(** X2.  The conversion to g-force loses nothing: the [float] that is
    stored is exactly [accelX / 16384], a number from -2 up to, but not
    including, 2. *)
Theorem g_force_is_exact (hi lo : Z) :
  exists q,
    float_value (g_force hi lo) = Some q /\
    (q == accelX_of hi lo # 16384)%Q /\
    (- (2 # 1) <= q)%Q /\ (q < 2 # 1)%Q.
Proof.
  pose proof (accelX_of_range hi lo) as Hrange.
  destruct (scaled_int16_value (accelX_of hi lo) Hrange) as (q & Hq & Heq).
  exists q. unfold g_force. rewrite scaled_int16_narrowing by exact Hrange.
  split; [exact Hq | split; [exact Heq | ]].
  rewrite Heq. unfold Qle, Qlt. simpl. lia.
Qed.

(** ** What the acquisition stores *)

Lemma load_byte_at (block : list Z) (i : Z) :
  0 <= i < Z.of_nat (length block) -> load block i = Some (byte_at block i).
Proof.
  intros Hi. unfold load, byte_at.
  destruct (Z.leb_spec 0 i); [ | lia].
  destruct (block !! Z.to_nat i) eqn:E; [reflexivity | ].
  apply lookup_ge_None in E. lia.
Qed.

(** The groups [j], [j + 1], ..., [j + m - 1] of a block, from a count of
    [n] samples on. *)
Lemma extract_block_groups (m : nat) :
  forall (j : Z) (block : list Z) (buffer : list float) (n : Z),
    0 <= j ->
    6 * (j + Z.of_nat m) <= Z.of_nat (length block) ->
    buffer_ok buffer ->
    0 <= n <= MAX_SAMPLES ->
    exists buffer',
      extract_block (Z.mul 6 <$> seqZ j (Z.of_nat m)) block buffer n
        = Some (buffer', Z.min MAX_SAMPLES (n + Z.of_nat m)) /\
      buffer_ok buffer' /\
      (forall k, 0 <= k -> n + k < Z.min MAX_SAMPLES (n + Z.of_nat m) ->
         buffer' !! Z.to_nat (n + k)
           = Some (g_force (byte_at block (6 * (j + k)))
                           (byte_at block (6 * (j + k) + 1)))) /\
      (forall i : nat,
         Z.of_nat i < n \/ Z.min MAX_SAMPLES (n + Z.of_nat m) <= Z.of_nat i ->
         buffer' !! i = buffer !! i).
Proof.
  induction m as [ | m IH]; intros j block buffer n Hj Hlen Hbuf Hn.
  - exists buffer. simpl. rewrite Z.add_0_r, Z.min_r by lia.
    repeat split; try assumption; try reflexivity. intros k Hk0 Hk. lia.
  - rewrite seqZ_cons by lia.
    replace (Z.pred (Z.of_nat (S m))) with (Z.of_nat m) by lia.
    rewrite fmap_cons. cbn [extract_block].
    destruct (Z.ltb_spec n MAX_SAMPLES) as [Hroom | Hfull].
    + rewrite (load_byte_at block (6 * j)) by lia. simpl.
      rewrite (load_byte_at block (6 * j + 1)) by lia. simpl.
      unfold buffer_ok in Hbuf. rewrite store_Some by lia. simpl.
      set (v := g_force (byte_at block (6 * j)) (byte_at block (6 * j + 1))).
      destruct (IH (Z.succ j) block (<[Z.to_nat n := v]> buffer) (n + 1))
        as (b' & E & Hb' & Hnew & Hold); try lia.
      { unfold buffer_ok. rewrite length_insert. exact Hbuf. }
      exists b'.
      replace (Z.min MAX_SAMPLES (n + Z.of_nat (S m)))
        with (Z.min MAX_SAMPLES (n + 1 + Z.of_nat m)) by lia.
      split; [exact E | split; [exact Hb' | split]].
      * intros k Hk0 Hk. destruct (Z.eq_dec k 0) as [-> | Hk1].
        -- rewrite !Z.add_0_r, Hold by lia.
           rewrite list_lookup_insert_eq by lia. reflexivity.
        -- specialize (Hnew (k - 1) ltac:(lia) ltac:(lia)).
           replace (n + 1 + (k - 1)) with (n + k) in Hnew by lia.
           replace (Z.succ j + (k - 1)) with (j + k) in Hnew by lia.
           exact Hnew.
      * intros i Hi. rewrite Hold by lia.
        apply list_lookup_insert_ne. lia.
    + exists buffer. rewrite Z.min_l by lia.
      replace n with MAX_SAMPLES by lia.
      repeat split; try assumption; try reflexivity. intros k Hk0 Hk. lia.
Qed.

Lemma block_offsets_groups :
  0 <= BLOCK_SIZE ->
  block_offsets = Z.mul 6 <$> seqZ 0 (Z.of_nat (Z.to_nat (BLOCK_SIZE `div` 6))).
Proof.
  intros HB. unfold block_offsets.
  assert (0 <= BLOCK_SIZE `div` 6) by (apply Z.div_pos; lia).
  replace (BLOCK_SIZE - 6) with (BLOCK_SIZE + (-1) * 6) by lia.
  rewrite Z.div_add by lia. rewrite Z2Nat.id by lia.
  f_equal. f_equal. lia.
Qed.

(** X3.  A block gives one sample for each whole group of six bytes, made
    of the first two bytes of the group, stored in order from slot
    [samplesRead] on until the buffer is full; the other slots keep their
    contents. *)
Theorem extract_block_reads_x_axis (block : list Z) (buffer : list float)
    (samplesRead : Z) :
  Z.of_nat (length block) = BLOCK_SIZE ->
  buffer_ok buffer ->
  0 <= samplesRead <= MAX_SAMPLES ->
  let samplesRead' := Z.min MAX_SAMPLES (samplesRead + BLOCK_SIZE `div` 6) in
  exists buffer',
    extract_block block_offsets block buffer samplesRead
      = Some (buffer', samplesRead') /\
    (forall k, 0 <= k < samplesRead' - samplesRead ->
       buffer' !! Z.to_nat (samplesRead + k)
         = Some (g_force (byte_at block (6 * k)) (byte_at block (6 * k + 1)))) /\
    (forall i : nat,
       Z.of_nat i < samplesRead \/ samplesRead' <= Z.of_nat i ->
       buffer' !! i = buffer !! i).
Proof.
  intros Hlen Hbuf Hn samplesRead'.
  assert (HB : 0 <= BLOCK_SIZE) by lia.
  assert (Hq : 0 <= BLOCK_SIZE `div` 6) by (apply Z.div_pos; lia).
  pose proof (Z.mul_div_le BLOCK_SIZE 6 ltac:(lia)) as Hle.
  rewrite (block_offsets_groups HB).
  destruct (extract_block_groups (Z.to_nat (BLOCK_SIZE `div` 6)) 0 block
              buffer samplesRead) as (b' & E & _ & Hnew & Hold);
    try assumption; try lia.
  rewrite Z2Nat.id in * by lia.
  exists b'. split; [exact E | split].
  - intros k Hk. apply (Hnew k); unfold samplesRead' in Hk; lia.
  - exact Hold.
Qed.

Lemma poll_loop_count (turns : list poll) :
  Forall poll_ok turns ->
  forall (buffer : list float) (n : Z),
    buffer_ok buffer -> 0 <= n <= MAX_SAMPLES ->
    exists buffer',
      poll_loop turns buffer n
        = Some (buffer',
                Z.min MAX_SAMPLES
                  (n + Z.of_nat (length (full_turns turns))
                         * (BLOCK_SIZE `div` 6))).
Proof.
  induction 1 as [ | p rest Hp Hrest IH]; intros buffer n Hbuf Hn.
  - exists buffer. simpl. rewrite Z.min_r by lia. f_equal. f_equal. lia.
  - cbn [poll_loop full_turns List.filter].
    destruct (Z.leb_spec BLOCK_SIZE (fifoCount p)) as [Hblock | Hshort].
    + pose proof (Hp Hblock) as Hlen.
      assert (Hq : 0 <= BLOCK_SIZE `div` 6) by (apply Z.div_pos; lia).
      assert (HB : 0 <= BLOCK_SIZE) by lia.
      pose proof (Z.mul_div_le BLOCK_SIZE 6 ltac:(lia)) as Hle.
      rewrite (block_offsets_groups HB).
      destruct (extract_block_groups (Z.to_nat (BLOCK_SIZE `div` 6)) 0
                  (fifoBuffer p) buffer n) as (b1 & -> & Hb1 & _);
        try assumption; try lia.
      rewrite Z2Nat.id by lia. simpl.
      destruct (IH b1 (Z.min MAX_SAMPLES (n + BLOCK_SIZE `div` 6)) Hb1
                  ltac:(lia)) as (b2 & ->).
      exists b2. f_equal. f_equal. fold (full_turns rest).
      set (r := Z.of_nat (length (full_turns rest))).
      assert (0 <= r * (BLOCK_SIZE `div` 6)) by (apply Z.mul_nonneg_nonneg; lia).
      replace (Z.of_nat (S (length (full_turns rest)))) with (1 + r) by lia.
      lia.
    + fold (full_turns rest). apply IH; assumption.
Qed.

(** X4.  An acquisition ends with the smaller of [MAX_SAMPLES] and the
    number of turns that found a whole block times the samples of a block,
    [BLOCK_SIZE / 6]: the buffer need not be full when the time is up. *)
Theorem fill_buffer_sample_count (turns : list poll) (buffer : list float) :
  buffer_ok buffer ->
  Forall poll_ok turns ->
  exists buffer',
    fill_buffer turns buffer
      = Some (buffer',
              Z.min MAX_SAMPLES
                (Z.of_nat (length (full_turns turns)) * (BLOCK_SIZE `div` 6))).
Proof.
  intros Hbuf Hturns. unfold fill_buffer.
  assert (H0 : 0 <= MAX_SAMPLES) by (unfold buffer_ok in Hbuf; lia).
  destruct (poll_loop_count turns Hturns buffer 0 Hbuf ltac:(lia)) as (b' & E).
  exists b'. rewrite E. reflexivity.
Qed.

Lemma poll_loop_full_turns (turns : list poll) :
  forall (buffer : list float) (n : Z),
    poll_loop turns buffer n = poll_loop (full_turns turns) buffer n.
Proof.
  induction turns as [ | p rest IH]; intros buffer n; [reflexivity | ].
  cbn [poll_loop full_turns List.filter].
  destruct (BLOCK_SIZE <=? fifoCount p) eqn:Hfull; fold (full_turns rest).
  - cbn [poll_loop]. rewrite Hfull.
    destruct (extract_block block_offsets (fifoBuffer p) buffer n)
      as [[b1 n1] | ]; simpl; [apply IH | reflexivity].
  - apply IH.
Qed.

(** X5.  Turns that find less than a block queued change nothing: the
    acquisition is the one of the turns with a whole block, and when the
    queue never fills it returns the buffer as it found it, the samples of
    the phase before included, with a count of 0. *)
Theorem starved_acquisition_keeps_buffer (turns : list poll)
    (buffer : list float) :
  fill_buffer turns buffer = fill_buffer (full_turns turns) buffer /\
  (Forall (fun p => fifoCount p < BLOCK_SIZE) turns ->
   fill_buffer turns buffer = Some (buffer, 0)).
Proof.
  unfold fill_buffer. split; [apply poll_loop_full_turns | ].
  intros Hstarved. rewrite poll_loop_full_turns.
  replace (full_turns turns) with (@nil poll); [reflexivity | ].
  induction Hstarved as [ | p rest Hp _ IH]; [reflexivity | ].
  cbn [full_turns List.filter].
  destruct (Z.leb_spec BLOCK_SIZE (fifoCount p)); [lia | exact IH].
Qed.

(** ** What a phase leaves in the trace *)

Lemma performFFT_no_activity (buffer : list float) :
  performFFT buffer = NoActivity.
Proof. unfold performFFT. rewrite band_maxima_initial. vm_compute. reflexivity. Qed.

Lemma count_events_app (p : event -> bool) (t1 t2 : list event) :
  count_events p (t1 ++ t2) = (count_events p t1 + count_events p t2)%nat.
Proof. unfold count_events. rewrite List.filter_app. apply length_app. Qed.

Ltac count_trace :=
  repeat split; try reflexivity;
  try (unfold count_events; simpl; lia);
  try (let H := fresh in
       intros H; unfold count_events in H; simpl in H; discriminate H).

(** The events of one attempt: one power-on; a classification and a
    power-off exactly when it completes the phase; a failed probe exactly
    when it adds to the retry count; a failed remount exactly when it
    breaks out of the loop. *)
Lemma attempt_trace (phase retryCount : Z) (w w' : world)
    (completed : bool) (retryCount' : Z) (how : turn_end) :
  attempt phase retryCount w
    = Returns ((completed, retryCount', how), w') ->
  exists t,
    trace w' = trace w ++ t /\
    count_events is_power_on t = 1%nat /\
    count_events is_PerformFFT t = bool_to_nat completed /\
    count_events is_power_off t = bool_to_nat completed /\
    Z.of_nat (count_events is_failed_probe t) = retryCount' - retryCount /\
    count_events is_failed_remount t
      = match how with Break => 1%nat | NextTurn => 0%nat end /\
    (bool_to_nat completed + count_events is_failed_probe t
       + count_events is_failed_remount t + count_events is_remount t
     = 1)%nat /\
    (count_events is_remount t = 1%nat -> remount env (mounts w) = true) /\
    forallb reports_no_detection t = true.
Proof.
  destruct (testConnection env (inits w)) eqn:Hinit.
  - destruct (fill_buffer (fifo_turns env (acquisitions w)) (inputBuffer w))
      as [[buffer n] | ] eqn:Hfill.
    + destruct (logging env (stores w)) eqn:Hlog.
      * rewrite (attempt_stored _ _ _ _ _ Hinit Hfill Hlog).
        intros E. inversion E; subst. eexists. split; [reflexivity | ].
        rewrite performFFT_no_activity. count_trace.
      * rewrite (attempt_store_failure _ _ _ _ _ Hinit Hfill Hlog).
        intros E. inversion E; subst. eexists. split; [reflexivity | ].
        destruct (remount env (mounts w)); count_trace.
    + rewrite (attempt_acquisition_fault _ _ _ Hinit Hfill). discriminate.
  - rewrite (attempt_init_failure _ _ _ Hinit).
    intros E. inversion E; subst. eexists. split; [reflexivity | ].
    count_trace.
Qed.

Ltac solve_counts :=
  unfold count_events in *; simpl in *; first [reflexivity | lia | assumption].

Ltac pick_exit :=
  first [ left; split_and!; (reflexivity || lia)
        | right; left; split_and!; (reflexivity || lia)
        | right; right; split_and!; (reflexivity || lia) ].

(** The events of the attempt loop, entered with the phase not completed. *)
Lemma attempt_loop_trace (fuel : nat) (phase : Z) :
  forall (retryCount : Z) (w w' : world) (completed : bool) (retryCount' : Z),
    attempt_loop fuel phase false retryCount w
      = Returns ((completed, retryCount'), w') ->
    exists t,
      trace w' = trace w ++ t /\
      count_events is_PerformFFT t = bool_to_nat completed /\
      count_events is_power_off t = bool_to_nat completed /\
      Z.of_nat (count_events is_failed_probe t) = retryCount' - retryCount /\
      (count_events is_power_on t
       = bool_to_nat completed + count_events is_failed_probe t
         + count_events is_failed_remount t + count_events is_remount t)%nat /\
      (retryCount < 3 -> (1 <= count_events is_power_on t)%nat) /\
      ((completed = true /\ retryCount' < 3 /\
        count_events is_failed_remount t = 0%nat) \/
       (completed = false /\ 3 <= retryCount' /\ retryCount' <= Z.max retryCount 3 /\
        count_events is_failed_remount t = 0%nat) \/
       (completed = false /\ retryCount' < 3 /\
        count_events is_failed_remount t = 1%nat)) /\
      forallb reports_no_detection t = true.
Proof.
  induction fuel as [ | fuel IH]; intros r w w' pc' rc'.
  - simpl. destruct (Z.ltb_spec r 3); [discriminate | ].
    intros E. inversion E; subst. exists []. rewrite app_nil_r.
    split_and!; solve_counts.
  - destruct (Z_lt_le_dec r 3) as [Hr | Hr].
    + rewrite attempt_loop_turn by exact Hr.
      destruct (attempt phase r w) as [[[[pc1 rc1] how] w1] | | ] eqn:Hturn;
        [ | discriminate | discriminate].
      apply attempt_trace in Hturn.
      destruct Hturn
        as (t1 & Ht1 & Hon1 & Hfft1 & Hoff1 & Hprobe1 & Hbreak1 & Hone1 & _ & Hquiet1).
      destruct how.
      * destruct pc1.
        -- rewrite attempt_loop_exit by (left; reflexivity).
           intros E. inversion E; subst. exists t1.
           simpl in Hone1.
           split_and!; try assumption; try (simpl; lia); try pick_exit.
        -- intros E. apply IH in E.
           destruct E
             as (t2 & Ht2 & Hfft2 & Hoff2 & Hprobe2 & Hon2 & _ & Hexit2 & Hquiet2).
           exists (t1 ++ t2). rewrite Ht2, Ht1, <- app_assoc.
           rewrite !count_events_app, forallb_app, Hquiet1, Hquiet2.
           simpl in Hfft1, Hoff1, Hone1.
           split_and!; try reflexivity; try lia.
           all: destruct Hexit2
                  as [(-> & ? & ?) | [(-> & ? & ? & ?) | (-> & ? & ?)]];
             pick_exit.
      * intros E. inversion E; subst. exists t1.
        assert (pc' = false /\ rc' = r) as [-> ->].
        { destruct pc'; simpl in Hone1; split; try reflexivity; lia. }
        simpl in Hone1, Hfft1, Hoff1.
        split_and!; try assumption; try (simpl; lia); try pick_exit.
    + rewrite attempt_loop_exit by (right; exact Hr).
      intros E. inversion E; subst. exists []. rewrite app_nil_r.
      split_and!; solve_counts.
Qed.

Lemma run_phase_trace (fuel : nat) (phase : Z) (w w' : world) (completed : bool) :
  run_phase fuel phase w = Returns (completed, w') ->
  exists t,
    trace w' = trace w ++ RecordingPhase phase (remainingCycles w) :: t /\
    count_events is_PerformFFT t = bool_to_nat completed /\
    count_events is_power_off t = bool_to_nat completed /\
    (1 <= count_events is_power_on t <= 3 + count_events is_remount t)%nat /\
    ((completed = true /\ (count_events is_failed_probe t < 3)%nat /\
      count_events is_failed_remount t = 0%nat) \/
     (completed = false /\ count_events is_failed_probe t = 3%nat /\
      count_events is_failed_remount t = 0%nat) \/
     (completed = false /\ (count_events is_failed_probe t < 3)%nat /\
      count_events is_failed_remount t = 1%nat)) /\
    forallb reports_no_detection t = true.
Proof.
  unfold run_phase, mbind, M_bind, emit, decrement_remainingCycles. simpl.
  destruct (attempt_loop fuel phase false 0 _) as [[[pc rc] w1] | | ] eqn:Hloop;
    [ | discriminate | discriminate].
  apply attempt_loop_trace in Hloop. simpl in Hloop.
  destruct Hloop
    as (t & Ht & Hfft & Hoff & Hprobe & Hon & Hfirst & Hexit & Hquiet).
  unfold mret, M_ret. intros E. inversion E; subst; simpl.
  exists t. rewrite Ht, <- app_assoc.
  split; [reflexivity | ].
  split; [exact Hfft | split; [exact Hoff | ]].
  split; [ | split; [ | exact Hquiet]].
  - destruct Hexit as [(-> & ? & ?) | [(-> & ? & ? & ?) | (-> & ? & ?)]];
      simpl in *; lia.
  - destruct Hexit as [(-> & ? & ?) | [(-> & ? & ? & ?) | (-> & ? & ?)]];
      [left | right; left | right; right];
      repeat split; try reflexivity; try assumption; lia.
Qed.

(** X7.  A phase that returns has run the classifier once if it completed
    and not at all if it did not; it has powered the sensor off exactly
    when it completed, so that a phase given up leaves the sensor on; it
    has made at least one attempt and at most three more than it had
    successful remounts; and it was given up either after three failed
    probes or after a failed remount, never both. *)
Theorem phase_outcome (fuel : nat) (phase : Z) (w w' : world) (completed : bool) :
  run_phase fuel phase w = Returns (completed, w') ->
  exists t,
    trace w' = trace w ++ RecordingPhase phase (remainingCycles w) :: t /\
    count_events is_PerformFFT t = bool_to_nat completed /\
    count_events is_power_off t = bool_to_nat completed /\
    (1 <= count_events is_power_on t <= 3 + count_events is_remount t)%nat /\
    (count_events is_failed_probe t <= 3)%nat /\
    (count_events is_failed_remount t <= 1)%nat /\
    (completed = false <->
       (count_events is_failed_probe t = 3%nat /\
        count_events is_failed_remount t = 0%nat) \/
       ((count_events is_failed_probe t < 3)%nat /\
        count_events is_failed_remount t = 1%nat)).
Proof.
  intros Hrun. apply run_phase_trace in Hrun.
  destruct Hrun as (t & Ht & Hfft & Hoff & Hon & Hexit & _).
  exists t. split; [exact Ht | split; [exact Hfft | split; [exact Hoff | ]]].
  split; [exact Hon | ].
  destruct Hexit as [(-> & ? & ?) | [(-> & ? & ?) | (-> & ? & ?)]];
    (split; [lia | split; [lia | ]]); split; intros H'; try discriminate;
    try reflexivity; try lia; try (left; split; assumption);
    try (right; split; assumption).
Qed.

(** ** What a pass leaves in the trace *)

Lemma phase_loop_trace (fuel : nat) (phases : list Z) :
  forall w w' : world,
    phase_loop fuel phases w = Returns (tt, w') ->
    exists t,
      trace w' = trace w ++ t /\
      forallb reports_no_detection t = true /\
      (count_events is_PerformFFT t <= length phases)%nat /\
      count_events is_power_off t = count_events is_PerformFFT t.
Proof.
  induction phases as [ | p rest IH]; intros w w'.
  - simpl. unfold mret, M_ret. intros E. inversion E; subst.
    exists []. rewrite app_nil_r. split_and!; reflexivity.
  - cbn [phase_loop]. unfold mbind, M_bind.
    destruct (run_phase fuel p w) as [[pc w1] | | ] eqn:Hphase;
      [ | discriminate | discriminate].
    apply run_phase_trace in Hphase.
    destruct Hphase as (t1 & Ht1 & Hfft1 & Hoff1 & _ & _ & Hquiet1).
    intros E. apply IH in E. destruct E as (t2 & Ht2 & Hquiet2 & Hfft2 & Hoff2).
    exists (RecordingPhase p (remainingCycles w) :: t1 ++ t2).
    rewrite Ht2, Ht1, <- app_assoc. split; [reflexivity | ].
    change (RecordingPhase p (remainingCycles w) :: t1 ++ t2)
      with ([RecordingPhase p (remainingCycles w)] ++ t1 ++ t2).
    rewrite !count_events_app, !forallb_app, Hquiet1, Hquiet2, Hoff1, Hoff2, Hfft1.
    split_and!; try reflexivity.
    destruct pc; unfold count_events in *; simpl; lia.
Qed.

(** X8.  Whatever the sensor delivers, a pass that returns has reported no
    detection: each classification it has run reports no activity.  It has
    classified at most once for each of its [CYCLES_FOR_5_MIN] phases, and
    powered the sensor off as many times as it has classified. *)
Theorem pass_reports_no_detection (fuel : nat) (w w' : world) :
  monitorSensors fuel w = Returns (tt, w') ->
  exists t,
    trace w' = trace w ++ t /\
    forallb reports_no_detection t = true /\
    (count_events is_PerformFFT t <= Z.to_nat CYCLES_FOR_5_MIN)%nat /\
    count_events is_power_off t = count_events is_PerformFFT t.
Proof.
  unfold monitorSensors. destruct (remainingCycles w <=? 0).
  - unfold emit. intros E. inversion E; subst. simpl.
    exists [QuickBlinkAndHalt]. split_and!; try reflexivity.
    unfold count_events. simpl. lia.
  - intros E. apply phase_loop_trace in E. rewrite length_seqZ in E. exact E.
Qed.

(** X9.  The program has the budget of one pass: started with
    [remainingCycles = CYCLES_FOR_5_MIN], a pass that returns leaves 0, and
    the next call of [monitorSensors] only signals the halt, leaving 0
    again. *)
Theorem budget_lasts_one_pass (fuel fuel' : nat) (w1 : world) :
  0 < CYCLES_FOR_5_MIN < 2147483648 ->
  monitorSensors fuel initial_world = Returns (tt, w1) ->
  remainingCycles w1 = 0 /\
  monitorSensors fuel' w1
    = Returns (tt,
               World 0 (inputBuffer w1) (trace w1 ++ [QuickBlinkAndHalt])
                 (inits w1) (stores w1) (mounts w1) (acquisitions w1)).
Proof.
  intros Hcycles. unfold monitorSensors at 1. cbn [remainingCycles initial_world].
  destruct (Z.leb_spec CYCLES_FOR_5_MIN 0); [lia | ].
  intros Hrun. apply phase_loop_inv in Hrun;
    cbn [remainingCycles initial_world]; rewrite ?length_seqZ; try lia.
  destruct Hrun as (Hrem & _). cbn [remainingCycles initial_world] in Hrem.
  rewrite length_seqZ in Hrem.
  assert (H0 : remainingCycles w1 = 0) by lia.
  split; [exact H0 | ].
  unfold monitorSensors, emit. rewrite H0. reflexivity.
Qed.

(** ** Termination without a working remount *)

Lemma attempt_loop_ends_without_remount :
  env_ok ->
  (forall k, remount env k = false) ->
  forall (fuel : nat) (phase : Z) (phaseCompleted : bool) (retryCount : Z)
         (w : world),
    buffer_ok (inputBuffer w) ->
    phaseCompleted = true \/ 3 <= retryCount \/
      (Z.to_nat (3 - retryCount) <= fuel)%nat ->
    exists r w',
      attempt_loop fuel phase phaseCompleted retryCount w = Returns (r, w').
Proof.
  intros Henv Hmount.
  induction fuel as [ | fuel IH]; intros phase pc rc w Hbuf Hmeasure.
  - destruct Hmeasure as [-> | [Hr | Hfuel]].
    + rewrite attempt_loop_exit by (left; reflexivity). eauto.
    + rewrite attempt_loop_exit by (right; exact Hr). eauto.
    + rewrite attempt_loop_exit by (right; lia). eauto.
  - destruct pc; [rewrite attempt_loop_exit by (left; reflexivity); eauto | ].
    destruct (Z_lt_le_dec rc 3) as [Hr | Hr];
      [ | rewrite attempt_loop_exit by (right; exact Hr); eauto].
    destruct Hmeasure as [Hpc | [Hr' | Hfuel]]; [discriminate | lia | ].
    rewrite attempt_loop_turn by exact Hr.
    destruct (attempt_total phase rc w Hbuf (Henv _))
      as ([[pc1 rc1] how] & w1 & Hturn).
    rewrite Hturn.
    pose proof (attempt_inv _ _ _ _ _ _ _ Hturn) as (_ & Hlen & _).
    apply attempt_trace in Hturn.
    destruct Hturn as (t & _ & _ & _ & _ & Hprobe & Hbreak & Hone & Hok & _).
    assert (Hbuf1 : buffer_ok (inputBuffer w1)).
    { unfold buffer_ok in *. rewrite Hlen. exact Hbuf. }
    destruct how; [ | eauto].
    apply IH; [exact Hbuf1 | ].
    destruct pc1; [left; reflexivity | ]. right. right.
    assert (count_events is_remount t <> 1%nat).
    { intros Hc. apply Hok in Hc. rewrite Hmount in Hc. discriminate. }
    simpl in Hone. lia.
Qed.

(** X10.  Only a successful remount can keep a phase going beyond three
    attempts: when the storage cannot be remounted, every phase ends within
    three attempts and the pass returns, whatever the sensor and the store
    do. *)
Theorem pass_ends_when_remount_fails (fuel : nat) (w : world) :
  env_ok ->
  (forall k, remount env k = false) ->
  (3 <= fuel)%nat ->
  buffer_ok (inputBuffer w) ->
  (forall phase, exists completed w',
     run_phase fuel phase w = Returns (completed, w')) /\
  exists w', monitorSensors fuel w = Returns (tt, w').
Proof.
  intros Henv Hmount Hfuel Hbuf.
  assert (Hphase : forall phase w0, buffer_ok (inputBuffer w0) ->
            exists completed w', run_phase fuel phase w0 = Returns (completed, w')).
  { intros phase w0 Hbuf0.
    unfold run_phase, mbind, M_bind, emit, decrement_remainingCycles. simpl.
    match goal with
    | |- context [attempt_loop fuel phase false 0 ?w1] =>
        destruct (attempt_loop_ends_without_remount Henv Hmount fuel phase
                    false 0 w1) as ([pc rc] & w2 & ->)
    end.
    - exact Hbuf0.
    - right. right. simpl. lia.
    - unfold mret, M_ret. eauto. }
  split; [intros phase; apply Hphase; exact Hbuf | ].
  unfold monitorSensors. destruct (remainingCycles w <=? 0).
  - unfold emit. eauto.
  - generalize (seqZ 1 CYCLES_FOR_5_MIN). intros phases.
    revert w Hbuf. induction phases as [ | p rest IH]; intros w Hbuf.
    + simpl. unfold mret, M_ret. eauto.
    + cbn [phase_loop]. unfold mbind, M_bind.
      destruct (Hphase p w Hbuf) as (pc & w1 & Hrun). rewrite Hrun.
      apply IH. apply run_phase_inv in Hrun. destruct Hrun as (_ & Hlen & _).
      unfold buffer_ok in *. rewrite Hlen. exact Hbuf.
Qed.

(** ** Not-a-number *)

Lemma NaN_Prim2SF (x : float) : is_NaN x = true -> Prim2SF x = S754_nan.
Proof.
  unfold is_NaN. rewrite FloatAxioms.eqb_spec. unfold SFeqb.
  destruct (Prim2SF x) as [s | s | | s m e]; simpl; try discriminate.
  - destruct s; discriminate.
  - reflexivity.
  - destruct s; rewrite Z.compare_refl, Pos.compare_cont_refl; discriminate.
Qed.

Lemma compare_NaN (x y : float) :
  is_NaN x = true \/ is_NaN y = true ->
  (x <? y)%float = false /\ (x <=? y)%float = false.
Proof.
  intros Hnan.
  rewrite FloatAxioms.ltb_spec, FloatAxioms.leb_spec. unfold SFltb, SFleb.
  destruct Hnan as [Hx | Hy].
  - rewrite (NaN_Prim2SF x Hx). split; reflexivity.
  - rewrite (NaN_Prim2SF y Hy).
    destruct (Prim2SF x); split; reflexivity.
Qed.

(** X11.  Not-a-number goes nowhere: a bin whose frequency or magnitude is
    a NaN changes no maximum, and a band whose maximum is a NaN is not the
    one detected. *)
Theorem NaN_is_ignored (m : maxima) (frequency magnitude : float) :
  (is_NaN frequency = true \/ is_NaN magnitude = true ->
   score_bin m frequency magnitude = m) /\
  (forall b, is_NaN (band_max m b) = true -> decision m <> Detected b).
Proof.
  split.
  - intros [Hf | Hm].
    + apply score_bin_no_band. intros b.
      destruct b; unfold in_band;
        rewrite (proj2 (compare_NaN frequency _ (or_introl Hf)));
        apply andb_false_r.
    + unfold score_bin.
      rewrite !(proj1 (compare_NaN _ magnitude (or_intror Hm))).
      destruct (in_band Axe frequency), (in_band Handsaw frequency),
        (in_band Chainsaw frequency); reflexivity.
  - intros b Hnan Hdec.
    pose proof (proj1 (compare_NaN SOME_THRESHOLD _ (or_intror Hnan))) as Hlt.
    unfold decision in Hdec.
    destruct b; simpl in Hlt;
      destruct (SOME_THRESHOLD <? max_chainsaw_magnitude m)%float;
      destruct (SOME_THRESHOLD <? max_axe_magnitude m)%float;
      destruct (SOME_THRESHOLD <? max_saw_magnitude m)%float;
      discriminate.
Qed.

(** ** A phase in which everything works *)

(** X13.  With the sensor answering and the store succeeding, a phase is
    done in one attempt, in this order: power on, initialization,
    acquisition, store, power off, classification.  The acquisition ends
    with the count of samples its turns give, and its buffer is the
    [inputBuffer] the phase leaves (the event of the store carries no
    count).  One cycle is taken off. *)
Theorem working_phase_completes_at_once (fuel : nat) (phase : Z) (w : world) :
  buffer_ok (inputBuffer w) ->
  Forall poll_ok (fifo_turns env (acquisitions w)) ->
  testConnection env (inits w) = true ->
  logging env (stores w) = true ->
  - 2147483648 < remainingCycles w < 2147483648 ->
  let samplesRead :=
    Z.min MAX_SAMPLES
      (Z.of_nat (length (full_turns (fifo_turns env (acquisitions w))))
         * (BLOCK_SIZE `div` 6)) in
  exists buffer,
    fill_buffer (fifo_turns env (acquisitions w)) (inputBuffer w)
      = Some (buffer, samplesRead) /\
    run_phase (S fuel) phase w
      = Returns (true,
                 World (remainingCycles w - 1) buffer
                   (trace w
                      ++ RecordingPhase phase (remainingCycles w)
                      :: recorded_attempt phase samplesRead true
                      ++ [ToggleSensorPower false; PerformFFT NoActivity])
                   (S (inits w)) (S (stores w)) (mounts w)
                   (S (acquisitions w))).
Proof.
  intros Hbuf Hturns Hinit Hlog Hrange samplesRead.
  assert (H0 : 0 <= MAX_SAMPLES) by (unfold buffer_ok in Hbuf; lia).
  destruct (poll_loop_count _ Hturns (inputBuffer w) 0 Hbuf ltac:(lia))
    as (buffer & Hfill).
  rewrite Z.add_0_l in Hfill. fold samplesRead in Hfill.
  exists buffer. split; [exact Hfill | ].
  unfold run_phase, mbind, M_bind, emit, decrement_remainingCycles.
  cbn [remainingCycles inputBuffer trace inits stores mounts acquisitions].
  rewrite attempt_loop_turn by lia.
  rewrite (attempt_stored _ _ _ buffer samplesRead) by assumption.
  rewrite attempt_loop_exit by (left; reflexivity).
  cbn [remainingCycles inputBuffer trace inits stores mounts acquisitions].
  unfold mret, M_ret. rewrite performFFT_no_activity, int32_id by lia.
  rewrite <- !app_assoc. reflexivity.
Qed.

End Firmware.

(** * Concrete runs *)

(** At [maxFreq] itself the test of the source and the one of the
    half-open range part: 60 Hz passes the test of the axe band.  No scored
    bin has that frequency. *)
Lemma half_open_range_differs_at_maxFreq :
  ~ (forall (b : band) (f : float),
       in_band b f = half_open_range (minFreq b) (maxFreq b) f).
Proof.
  intros Hclaim. specialize (Hclaim Axe 60%float).
  vm_compute in Hclaim. discriminate Hclaim.
Qed.

(** With 1024 samples, bin 1 is scored at 0 Hz. *)
Lemma bin_frequency_is_truncated_at_1024 :
  1 ∈ scored_bins 1024 /\
  bin_frequency_int 1024 1 = 0 /\
  float_value (bin_frequency 1024 1) = Some 0%Q /\
  ~ (0 == exact_frequency 1024 1)%Q.
Proof. apply (bin_frequency_is_truncated 1024). lia. Defined.

Lemma sample_turns_ok : Forall (poll_ok 12) sample_turns.
Proof.
  unfold sample_turns, poll_ok.
  repeat constructor; simpl; intros; (reflexivity || lia).
Defined.

(** Two blocks of two samples each fill a buffer of three. *)
Lemma fill_buffer_sample_turns :
  exists buffer' samplesRead,
    fill_buffer 3 12 sample_turns [0; 0; 0]%float = Some (buffer', samplesRead) /\
    0 <= samplesRead <= 3.
Proof.
  destruct (fill_buffer_within_capacity 3 12 sample_turns [0; 0; 0]%float)
    as [(buffer' & samplesRead & Hfill & _ & Hcount & _) _].
  - reflexivity.
  - exact sample_turns_ok.
  - exists buffer', samplesRead. split; assumption.
Defined.

(** A sensor that never answers: the phase is given up after three
    attempts and costs one cycle. *)
Lemma run_phase_sensor_absent :
  run_phase 8 3 12 identity_transform (sample_env false true true) 3 1
    (sample_world 5)
  = Returns (false,
             World 4 [0; 0; 0]%float
               (RecordingPhase 1 5
                  :: failed_attempt ++ failed_attempt ++ failed_attempt)
               3 0 0 0).
Proof.
  pose proof (init_failures_abandon_phase 8 3 12 identity_transform
                (sample_env false true true) 3 1 0 (sample_world 5)
                ltac:(lia) ltac:(lia) ltac:(simpl; lia) ltac:(reflexivity))
    as H.
  cbv zeta in H. destruct H as (_ & _ & H & _). exact H.
Defined.

(** A store and a remount that both fail: the attempt loop is left with
    the retry count still at 0. *)
Lemma attempt_loop_storage_lost :
  exists w',
    attempt_loop 8 3 12 identity_transform (sample_env true false false)
      1 1 false 0 (sample_world 5)
    = Returns ((false, 0), w').
Proof.
  destruct (store_failure_remounts_once 8 3 12 identity_transform
              (sample_env true false false) 0 1 0 (sample_world 5))
    as (buffer & samplesRead & _ & _ & _ & Hlost & _).
  - lia.
  - reflexivity.
  - exact sample_turns_ok.
  - reflexivity.
  - reflexivity.
  - eexists. apply Hlost. reflexivity.
Defined.

(** No cycle left: the halt, and nothing else. *)
Lemma monitorSensors_no_cycle_left :
  monitorSensors 8 3 12 3 identity_transform (sample_env true true true) 0
    (sample_world 0)
  = Returns (tt, World 0 [0; 0; 0]%float [QuickBlinkAndHalt] 0 0 0 0).
Proof.
  exact (exhausted_budget_halts 8 3 12 3 identity_transform
           (sample_env true true true) 0 (sample_world 0) ltac:(simpl; lia)).
Defined.

(** Two cycles left and three phases in a pass: the pass runs to its end
    and leaves -1. *)
Lemma monitorSensors_overdraws_budget :
  exists w',
    monitorSensors 8 3 12 3 identity_transform (sample_env true true true) 4
      (sample_world 2)
    = Returns (tt, w') /\
    remainingCycles w' = -1.
Proof.
  destruct (budget_checked_on_entry_only 8 3 12 3 identity_transform
              (sample_env true true true) 4 (sample_world 2))
    as [Hinv Htotal].
  - simpl. lia.
  - lia.
  - destruct (Htotal 0%nat) as [w' Hrun].
    + intros k. exact sample_turns_ok.
    + reflexivity.
    + lia.
    + reflexivity.
    + exists w'. split; [exact Hrun | ].
      apply Hinv in Hrun. destruct Hrun as (Hrem & _). simpl in Hrem. lia.
Defined.

(** ** Concrete runs of the further facts *)

(** The second group of the sample block is the sample -1/16384 g. *)
Lemma extract_block_sample_block :
  exists buffer',
    extract_block 3 (block_offsets 12) sample_block [0; 0; 0]%float 0
      = Some (buffer', 2) /\
    buffer' !! 1%nat = Some (g_force 255 255).
Proof.
  destruct (extract_block_reads_x_axis 3 12 sample_block [0; 0; 0]%float 0)
    as (buffer' & E & Hnew & _).
  - reflexivity.
  - reflexivity.
  - lia.
  - exists buffer'. split; [exact E | ].
    apply (Hnew 1). change (0 <= 1 < 2). lia.
Defined.

(** Two whole blocks of two samples fill a buffer of three. *)
Lemma fill_buffer_sample_turns_count :
  exists buffer', fill_buffer 3 12 sample_turns [0; 0; 0]%float = Some (buffer', 3).
Proof.
  destruct (fill_buffer_sample_count 3 12 sample_turns [0; 0; 0]%float)
    as (buffer' & E).
  - reflexivity.
  - exact sample_turns_ok.
  - exists buffer'. exact E.
Defined.

(** A queue that never holds a block. *)
Lemma fill_buffer_starved :
  fill_buffer 3 12 [Poll 3 []; Poll 0 []] [1; 2; 3]%float
  = Some ([1; 2; 3]%float, 0).
Proof.
  apply (proj2 (starved_acquisition_keeps_buffer 3 12 [Poll 3 []; Poll 0 []]
                  [1; 2; 3]%float)).
  repeat constructor; simpl; lia.
Defined.

(** A phase with the sensor absent: no classification, the sensor left on. *)
Lemma phase_outcome_sensor_absent :
  exists (w' : world) (t : list event),
    run_phase 8 3 12 identity_transform (sample_env false true true) 3 1
      (sample_world 5) = Returns (false, w') /\
    trace w' = RecordingPhase 1 5 :: t /\
    count_events is_PerformFFT t = 0%nat /\
    count_events is_power_off t = 0%nat.
Proof.
  destruct (run_phase 8 3 12 identity_transform (sample_env false true true)
              3 1 (sample_world 5)) as [[completed w'] | | ] eqn:Hrun.
  - destruct (phase_outcome 8 3 12 identity_transform
                (sample_env false true true) 3 1 (sample_world 5) w' completed
                Hrun) as (t & Ht & Hfft & Hoff & _).
    assert (completed = false) as ->.
    { vm_compute in Hrun. inversion Hrun. reflexivity. }
    exists w', t. split_and!; [reflexivity | exact Ht | exact Hfft | exact Hoff].
  - vm_compute in Hrun. discriminate Hrun.
  - vm_compute in Hrun. discriminate Hrun.
Defined.

(** A pass of three working phases. *)
Lemma pass_of_working_phases :
  exists (w' : world) (t : list event),
    monitorSensors 8 3 12 3 identity_transform (sample_env true true true) 4
      (sample_world 5) = Returns (tt, w') /\
    trace w' = t /\
    forallb reports_no_detection t = true.
Proof.
  destruct (monitorSensors 8 3 12 3 identity_transform
              (sample_env true true true) 4 (sample_world 5))
    as [[[] w'] | | ] eqn:Hrun.
  - destruct (pass_reports_no_detection 8 3 12 3 identity_transform
                (sample_env true true true) 4 (sample_world 5) w' Hrun)
      as (t & Ht & Hquiet & _).
    exists w', t. split_and!; [reflexivity | exact Ht | exact Hquiet].
  - vm_compute in Hrun. discriminate Hrun.
  - vm_compute in Hrun. discriminate Hrun.
Defined.

(** A first pass of three phases, then the halt. *)
Lemma second_pass_halts :
  exists w1 w2 : world,
    monitorSensors 8 3 12 3 identity_transform (sample_env true true true) 4
      (initial_world 3 3) = Returns (tt, w1) /\
    remainingCycles w1 = 0 /\
    monitorSensors 8 3 12 3 identity_transform (sample_env true true true) 0
      w1 = Returns (tt, w2) /\
    trace w2 = trace w1 ++ [QuickBlinkAndHalt].
Proof.
  destruct (monitorSensors 8 3 12 3 identity_transform
              (sample_env true true true) 4 (initial_world 3 3))
    as [[[] w1] | | ] eqn:Hrun.
  - destruct (budget_lasts_one_pass 8 3 12 3 identity_transform
                (sample_env true true true) 4 0 w1 ltac:(lia) Hrun)
      as (Hzero & Hhalt).
    exists w1. eexists. split_and!; [reflexivity | exact Hzero | exact Hhalt | ].
    reflexivity.
  - vm_compute in Hrun. discriminate Hrun.
  - vm_compute in Hrun. discriminate Hrun.
Defined.

(** Stores and remounts that always fail: the pass still returns. *)
Lemma pass_with_storage_lost :
  exists w',
    monitorSensors 8 3 12 3 identity_transform (sample_env true false false) 3
      (sample_world 5) = Returns (tt, w').
Proof.
  apply (pass_ends_when_remount_fails 8 3 12 3 identity_transform
           (sample_env true false false) 3 (sample_world 5)).
  - intros k. exact sample_turns_ok.
  - reflexivity.
  - lia.
  - reflexivity.
Defined.

(** A NaN magnitude at a frequency of the axe band. *)
Lemma score_bin_NaN_magnitude :
  score_bin initial_maxima 30%float nan = initial_maxima.
Proof.
  apply (proj1 (NaN_is_ignored initial_maxima 30%float nan)).
  right. reflexivity.
Defined.

(** The first store fails, the remount succeeds, the second store succeeds. *)
Lemma attempt_loop_store_recovers :
  attempt_loop 8 3 12 identity_transform first_store_fails_env 2 1 false 0
    (sample_world 5)
  = Returns ((true, 0),
             World 5 [g_force 0 1; g_force 255 255; g_force 0 1]
               (recorded_attempt 1 3 false
                  ++ [SpiffsEnd; SpiffsBegin true true]
                  ++ recorded_attempt 1 3 true
                  ++ [ToggleSensorPower false;
                      PerformFFT
                        (performFFT 8 3 identity_transform
                           [g_force 0 1; g_force 255 255; g_force 0 1])])
               2 2 1 2).
Proof.
  apply (store_recovers_after_remount 8 3 12 identity_transform
           first_store_fails_env 0 1 0 (sample_world 5)
           [g_force 0 1; g_force 255 255; g_force 0 1]
           [g_force 0 1; g_force 255 255; g_force 0 1] 3 3);
    first [lia | vm_compute; reflexivity].
Defined.

(** A working phase of the sample configuration stores three samples. *)
Lemma working_phase_of_sample_env :
  exists buffer,
    run_phase 8 3 12 identity_transform (sample_env true true true) 1 1
      (sample_world 5)
    = Returns (true,
               World 4 buffer
                 (RecordingPhase 1 5
                    :: recorded_attempt 1 3 true
                    ++ [ToggleSensorPower false; PerformFFT NoActivity])
                 1 1 0 1).
Proof.
  destruct (working_phase_completes_at_once 8 3 12 identity_transform
              (sample_env true true true) 0 1 (sample_world 5))
    as (buffer & _ & Hrun).
  - reflexivity.
  - exact sample_turns_ok.
  - reflexivity.
  - reflexivity.
  - simpl. lia.
  - exists buffer. exact Hrun.
Defined.
